(** * MongoDB query extensions of django_mongodb_engine.contrib

    A shallow embedding of [django_mongodb_engine/contrib/__init__.py]
    (Python 2): the rewriting of filter keywords into dotted MongoDB paths in
    [MongoDBQuerySet._filter_or_exclude], the raw query and update facade of
    [RawQueryMixin], and the Map/Reduce result adapter.

    Python objects that the code mutates or shares (querysets, queries, model
    classes, the collections of the database) live in explicit stores that are
    threaded through the operations; exceptions are an error result. *)

From Stdlib Require Import Ascii.
From stdpp Require Import base gmap strings list.

Set Warnings "-register-all".
Set Default Proof Using "Type".

(** ** Python string operations used by the source *)

Module PyStr.

(** [s.startswith(p)] *)
Fixpoint startswith (s p : string) {struct p} : bool :=
  match p, s with
  | EmptyString, _ => true
  | String _ _, EmptyString => false
  | String a p', String b s' => if Ascii.eqb a b then startswith s' p' else false
  end.

(** [s.endswith(p)]: some tail of [s] is [p]. *)
Fixpoint endswith (s p : string) : bool :=
  if String.eqb s p then true
  else match s with
       | EmptyString => false
       | String _ s' => endswith s' p
       end.

(** [sub in s] *)
Fixpoint contains (s sub : string) : bool :=
  if startswith s sub then true
  else match s with
       | EmptyString => false
       | String _ s' => contains s' sub
       end.

(** [s.split(sep)[0]] for a non-empty [sep]: the text before the first
    occurrence of [sep], the whole of [s] when there is none. *)
Fixpoint split_head (s sep : string) : string :=
  if startswith s sep then EmptyString
  else match s with
       | EmptyString => EmptyString
       | String c s' => String c (split_head s' sep)
       end.

(** [s.replace(old, new)] for a non-empty [old]: a scan from the left that
    replaces each occurrence found and resumes after it.  [skip] counts the
    characters of the occurrence that are still to be passed over. *)
Fixpoint replace_from (skip : nat) (s old new : string) : string :=
  match s with
  | EmptyString => EmptyString
  | String c s' =>
      match skip with
      | S n => replace_from n s' old new
      | O => if startswith s old
             then new +:+ replace_from (String.length old - 1) s' old new
             else String c (replace_from 0 s' old new)
      end
  end.

Definition replace (s old new : string) : string := replace_from 0 s old new.

(** [strip_suffix s p] is [Some pre] when [s = pre + p]. *)
Fixpoint strip_suffix (s p : string) : option string :=
  if String.eqb s p then Some EmptyString
  else match s with
       | EmptyString => None
       | String c s' => String c <$> strip_suffix s' p
       end.

Definition newline : string := String (Ascii.ascii_of_nat 10) EmptyString.

(** [re.sub(lit + '$', repl, s)] for a pattern that is the literal text
    [lit] (two characters or more, none of them special in a regular
    expression) followed by the end anchor, and a replacement without
    backslashes.  The anchor matches at the end of the string and also just
    before a newline that ends the string; the leftmost match is the one
    replaced, and the two candidates overlap. *)
Definition re_sub_end (lit repl s : string) : string :=
  match strip_suffix s (lit +:+ newline) with
  | Some pre => pre +:+ repl +:+ newline
  | None =>
      match strip_suffix s lit with
      | Some pre => pre +:+ repl
      | None => s
      end
  end.

End PyStr.

(** ** Module constants *)

(** [django.db.models.constants.LOOKUP_SEP] *)
Definition LOOKUP_SEP : string := "__".

Definition MONGO_DOT_FIELDS : list string :=
  ["DictField"; "ListField"; "SetField"; "EmbeddedModelField"].

(** ** The rewriting of one filter keyword *)

Section KeyRewriting.

(** [ALL_OPERATORS]: the keys of [OPERATORS_MAP] and [NEGATED_OPERATORS_MAP]
    of [django_mongodb_engine.compiler], in the order in which the list is
    iterated.  That module is not among the sources embedded here, so the
    list is a parameter; its members are lookup names, words of lowercase
    letters, so that [LOOKUP_SEP + s + '$'] is a literal followed by the end
    anchor. *)
Variable ALL_OPERATORS : list string.

(** The loop [for s in ALL_OPERATORS: if k.endswith(s): k = re.sub(...); break]. *)
Fixpoint mark_operator (ops : list string) (k : string) : string :=
  match ops with
  | [] => k
  | s :: ops' =>
      if PyStr.endswith k s
      then PyStr.re_sub_end (LOOKUP_SEP +:+ s) ("#" +:+ s) k
      else mark_operator ops' k
  end.

(** Lines 112 to 116: the new key of a keyword that is rewritten. *)
Definition dotted_key (k : string) : string :=
  PyStr.replace
    (PyStr.replace (mark_operator ALL_OPERATORS k) LOOKUP_SEP ".")
    "#" LOOKUP_SEP.

End KeyRewriting.

(** ** Shapes of keys and of operator names *)

(** [all_chars P s]: every character of [s] satisfies [P]. *)
Fixpoint all_chars (P : Ascii.ascii → bool) (s : string) : bool :=
  match s with
  | EmptyString => true
  | String c s' => P c && all_chars P s'
  end.

Definition is_lower (c : Ascii.ascii) : bool :=
  let n := Ascii.nat_of_ascii c in (97 <=? n)%nat && (n <=? 122)%nat.

(** A lookup name as the operator tables have them: a non-empty word of
    lowercase letters. *)
Definition is_word (s : string) : bool :=
  match s with
  | EmptyString => false
  | String _ _ => all_chars is_lower s
  end.

(** No [#], the character that the rewriting uses as its mark. *)
Definition no_hash (s : string) : bool :=
  all_chars (λ c, negb (Ascii.eqb c "#"%char)) s.

Fixpoint last_char (s : string) : option Ascii.ascii :=
  match s with
  | EmptyString => None
  | String c EmptyString => Some c
  | String _ s' => last_char s'
  end.

(** [s.replace(LOOKUP_SEP, '.')] and [s.replace('#', LOOKUP_SEP)] *)
Definition dots (s : string) : string := PyStr.replace s LOOKUP_SEP ".".
Definition unhash (s : string) : string := PyStr.replace s "#" LOOKUP_SEP.

(** ** Python values, exceptions and the stores *)

(** The values that are passed through: filter values, documents, options.
    [VObj] stands for any other object (a [Q] instance, a model instance). *)
Inductive Value : Type :=
  | VNone
  | VBool (b : bool)
  | VInt (n : Z)
  | VStr (s : string)
  | VList (l : list Value)
  | VDict (d : gmap string Value)
  | VObj (repr : string).

(** [isinstance(v, dict)] *)
Definition is_dict (v : Value) : bool :=
  match v with VDict _ => true | _ => false end.

(** Truth value of an object in a condition. *)
Definition truthy (v : Value) : bool :=
  match v with
  | VNone => false
  | VBool b => b
  | VInt n => negb (Z.eqb n 0)
  | VStr s => negb (String.eqb s "")
  | VList l => match l with [] => false | _ => true end
  | VDict d => negb (bool_decide (d = ∅))
  | VObj _ => true
  end.

(** A document returned by the driver. *)
Abbreviation Entity := (gmap string Value).

Inductive Exn : Type :=
  | AssertionError (msg : string)
  | KeyError (key : string)
  | NoSuchObject
  | DriverError (info : string).

Inductive Result (A : Type) : Type :=
  | Ok (a : A)
  | Raise (e : Exn).
Arguments Ok {A} a.
Arguments Raise {A} e.

(** A field of a model, with the attributes the source sets or reads. *)
Record Field : Type := mkField {
  internal_type : string;   (* get_internal_type() *)
  blank : bool;
  null : bool;
  editable : bool
}.

(** A [Q] object built from positional and keyword children, and [~q]. *)
Inductive QNode : Type :=
  | Q (args : list Value) (kwargs : gmap string Value)
  | QNot (q : QNode).

(** The interface of [django.db.models.sql.query.Query] that the source
    relies on.  Django is a collaborator, so its query is kept abstract. *)
Class DjangoQuery : Type := {
  SQLQuery : Type;
  sql_new : string → SQLQuery;              (* SQLQuery(model) *)
  sql_clone : SQLQuery → SQLQuery;          (* SQLQuery.clone() *)
  can_filter : SQLQuery → bool;             (* false once a slice was taken *)
  add_q : SQLQuery → QNode → SQLQuery       (* the query after query.add_q(q) *)
}.

(** The calls that reach the driver, in the order they are made. *)
Inductive DriverCall : Type :=
  | CallUpdate (collection : string) (criteria update : Value)
               (options : gmap string Value)
  | CallMapReduce (collection : string) (args : list Value)
                  (kwargs : gmap string Value)
  | CallInlineMapReduce (collection : string) (args : list Value)
                        (kwargs : gmap string Value)
  | CallFind (collection : string)
  | CallDrop (collection : string).

Section Stores.

Context `{DjangoQuery}.

(** A query object: Django's [SQLQuery], or the [RawQuery] subclass that
    adds the attribute [raw_query]. *)
Inductive Query : Type :=
  | PlainQuery (q : SQLQuery)
  | RawQuery (q : SQLQuery) (raw_query : Value).

Definition query_sql (q : Query) : SQLQuery :=
  match q with PlainQuery s => s | RawQuery s _ => s end.

(** [RawQuery.__init__(model, raw_query)] *)
Definition RawQuery_init (model : string) (raw_query : Value) : Query :=
  RawQuery (sql_new model) raw_query.

(** [clone()]: [SQLQuery.clone] and its override [RawQuery.clone], which
    copies [raw_query] to the clone. *)
Definition query_clone (q : Query) : Query :=
  match q with
  | PlainQuery s => PlainQuery (sql_clone s)
  | RawQuery s r => RawQuery (sql_clone s) r
  end.

(** [query.add_q(node)] on either class. *)
Definition query_add_q (q : Query) (node : QNode) : Query :=
  match q with
  | PlainQuery s => PlainQuery (add_q s node)
  | RawQuery s r => RawQuery (add_q s node) r
  end.

Inductive QuerySetClass : Type := DjangoQuerySet | MongoDBQuerySet.

(** A queryset object.  [qs_query] is a reference into the store. *)
Record QuerySet : Type := mkQuerySet {
  qs_class : QuerySetClass;
  qs_model : string;
  qs_query : nat;
  qs_db : option string;
  qs_for_write : bool
}.

(** The objects and the database.  [models] maps a model class to its
    fields by name ([_meta]); [colls] maps a collection to its documents. *)
Record Store : Type := mkStore {
  queries : gmap nat Query;
  querysets : gmap nat QuerySet;
  models : gmap string (gmap string Field);
  colls : gmap string (list Entity);
  trace : list DriverCall
}.

Definition set_queries (f : gmap nat Query → gmap nat Query) (st : Store) :=
  mkStore (f (queries st)) (querysets st) (models st) (colls st) (trace st).
Definition set_querysets (f : gmap nat QuerySet → gmap nat QuerySet) (st : Store) :=
  mkStore (queries st) (f (querysets st)) (models st) (colls st) (trace st).
Definition set_models
    (f : gmap string (gmap string Field) → gmap string (gmap string Field))
    (st : Store) :=
  mkStore (queries st) (querysets st) (f (models st)) (colls st) (trace st).
Definition set_colls
    (f : gmap string (list Entity) → gmap string (list Entity)) (st : Store) :=
  mkStore (queries st) (querysets st) (models st) (f (colls st)) (trace st).
Definition log (c : DriverCall) (st : Store) :=
  mkStore (queries st) (querysets st) (models st) (colls st) (trace st ++ [c]).

(** Computations that read and write the stores and may raise.  The store
    survives an exception, as the heap and the database do. *)
Definition M (A : Type) : Type := Store → Result A * Store.

Definition ret {A} (a : A) : M A := λ st, (Ok a, st).
Definition raise {A} (e : Exn) : M A := λ st, (Raise e, st).
Definition bind {A B} (m : M A) (k : A → M B) : M B :=
  λ st, match m st with
        | (Ok a, st') => k a st'
        | (Raise e, st') => (Raise e, st')
        end.
Definition gets {A} (f : Store → A) : M A := λ st, (Ok (f st), st).
Definition modify (f : Store → Store) : M unit := λ st, (Ok tt, f st).

(** [try: m finally: h] *)
Definition finally {A} (m : M A) (h : M unit) : M A :=
  λ st, match m st with
        | (r, st') =>
            match h st' with
            | (Ok _, st'') => (r, st'')
            | (Raise e, st'') => (Raise e, st'')
            end
        end.

End Stores.

Notation "'let*' x ':=' m 'in' k" := (bind m (λ x, k))
  (at level 10, x pattern, m at level 100, k at level 200).
Notation "m ';;' k" := (bind m (λ _, k))
  (at level 100, k at level 200, right associativity).

(** ** Objects in the store, and Django's part of a queryset *)

Section Objects.

Context `{DjangoQuery}.

Definition get_queryset (l : nat) : M QuerySet :=
  λ st, match querysets st !! l with
        | Some qs => (Ok qs, st)
        | None => (Raise NoSuchObject, st)
        end.

Definition get_query (l : nat) : M Query :=
  λ st, match queries st !! l with
        | Some q => (Ok q, st)
        | None => (Raise NoSuchObject, st)
        end.

(** A new object gets a reference that is not in use. *)
Definition new_query (q : Query) : M nat :=
  λ st, let l := fresh (dom (queries st)) in
        (Ok l, set_queries (insert l q) st).

Definition new_queryset (qs : QuerySet) : M nat :=
  λ st, let l := fresh (dom (querysets st)) in
        (Ok l, set_querysets (insert l qs) st).

(** [model._meta]: the fields of a model class by name. *)
Definition get_meta (model : string) : M (gmap string Field) :=
  gets (λ st, default ∅ (models st !! model)).

(** [QuerySet._clone()] of Django: a new queryset of the same class, on the
    same model and database, whose query is [self.query.clone()]. *)
Definition _clone (self : nat) : M nat :=
  let* qs := get_queryset self in
  let* q := get_query (qs_query qs) in
  let* lq := new_query (query_clone q) in
  new_queryset
    (mkQuerySet (qs_class qs) (qs_model qs) lq (qs_db qs) (qs_for_write qs)).

(** [field.contribute_to_class(model, name)]: the field is entered in the
    fields of the model class under [name]. *)
Definition contribute_to_class (field : Field) (model name : string) : M unit :=
  modify (set_models
            (λ ms, <[model := <[name := field]> (default ∅ (ms !! model))]> ms)).

(** [AbstractIterableField(blank=True, null=True, editable=False)] of
    djangotoolbox; it does not override [get_internal_type], which is the
    name of the class. *)
Definition AbstractIterableField : Field :=
  mkField "AbstractIterableField" true true false.

End Objects.

(** ** MongoDBQuerySet._filter_or_exclude *)

(** The predicate that lines 123 to 126 add to the query of the clone. *)
Definition added_node (negate : bool) (args : list Value)
    (kwargs : gmap string Value) : QNode :=
  if negate then QNot (Q args kwargs) else Q args kwargs.

Section FilterOrExclude.

Context `{DjangoQuery}.
Variable ALL_OPERATORS : list string.

Definition nonempty {A} (l : list A) : bool :=
  match l with [] => false | _ :: _ => true end.

(** [self.model._meta.get_all_field_names()] *)
Definition get_all_field_names (meta : gmap string Field) : list string :=
  (map_to_list meta).*1.

(** The condition of line 106 on a field [f] of the model. *)
Definition is_dot_field (f : string) (field : Field) : bool :=
  negb (PyStr.contains f ".")
  && bool_decide (internal_type field ∈ MONGO_DOT_FIELDS).

(** Lines 102 to 107.  The loop runs over the names of the fields and looks
    each field up by its name; here it runs over the fields with their
    names. *)
Fixpoint collect_base (fields : list (string * Field)) : list string :=
  match fields with
  | [] => []
  | (f, field) :: rest =>
      if is_dot_field f field then f :: collect_base rest
      else collect_base rest
  end.

Definition base_field_names (meta : gmap string Field) : list string :=
  collect_base (map_to_list meta).

(** The condition of line 110. *)
Definition is_rewritten (base : list string) (k : string) : bool :=
  PyStr.contains k LOOKUP_SEP
  && bool_decide (PyStr.split_head k LOOKUP_SEP ∈ base).

(** The condition of line 119 on the first segment [f] of a key. *)
Definition is_adhoc (all : list string) (f : string) : bool :=
  PyStr.contains f "." && negb (bool_decide (f ∈ all)).

(** The body of the loop of lines 109 to 121, for the item [(k, v)];
    [kwargs] is the dictionary as the earlier items left it. *)
Definition rewrite_item (model : string) (base all : list string)
    (kwargs : gmap string Value) (item : string * Value)
    : M (gmap string Value) :=
  let '(k, v) := item in
  let* kk :=
    (if is_rewritten base k then
       match kwargs !! k with
       | None => raise (KeyError k)               (* del kwargs[k] *)
       | Some _ =>
           let k' := dotted_key ALL_OPERATORS k in
           ret (k', <[k' := v]> (delete k kwargs))
       end
     else ret (k, kwargs)) in
  let f := PyStr.split_head kk.1 LOOKUP_SEP in
  (if is_adhoc all f
   then contribute_to_class AbstractIterableField model f
   else ret tt) ;;
  ret kk.2.

(** [for k, v in kwargs.items(): ...] over the listing [items] of the
    dictionary, which Python 2 takes before the loop starts. *)
Fixpoint rewrite_kwargs (model : string) (base all : list string)
    (items : list (string * Value)) (kwargs : gmap string Value)
    : M (gmap string Value) :=
  match items with
  | [] => ret kwargs
  | item :: rest =>
      let* kwargs' := rewrite_item model base all kwargs item in
      rewrite_kwargs model base all rest kwargs'
  end.

(** [self._filter_or_exclude(negate, *args, **kwargs)].  [items] is
    [kwargs.items()]: the keywords with their values, in the order in which
    the dictionary lists them.  The result is the new queryset. *)
Definition _filter_or_exclude (self : nat) (negate : bool)
    (args : list Value) (items : list (string * Value)) : M nat :=
  let* qs := get_queryset self in
  (if nonempty args || nonempty items then
     let* q := get_query (qs_query qs) in
     if can_filter (query_sql q) then ret tt
     else raise (AssertionError
                   "Cannot filter a query once a slice has been taken.")
   else ret tt) ;;
  let* clone := _clone self in
  let* meta := get_meta (qs_model qs) in
  let all_field_names := get_all_field_names meta in
  let* kwargs :=
    rewrite_kwargs (qs_model qs) (base_field_names meta) all_field_names
                   items (list_to_map items) in
  let* cqs := get_queryset clone in
  let* cq := get_query (qs_query cqs) in
  modify (set_queries
            (<[qs_query cqs := query_add_q cq (added_node negate args kwargs)]>)) ;;
  ret clone.

End FilterOrExclude.

(** ** The compiler and the driver *)

(** Modelled from the spec: the compilers of [django_mongodb_engine.compiler]
    are used by this file and are not part of it.  The spec gives
    [build_query()] as an object with the driver filter document
    [mongo_query] and the collection handle [collection]; a raw filter
    document is accepted verbatim and passed through unmodified, any other
    query goes through the translation of ORM predicates, which is
    [orm_filter] here; the collection of a model is [collection_of]. *)
Class MongoCompiler `{DjangoQuery} : Type := {
  orm_filter : SQLQuery → Value;
  collection_of : string → string
}.

(** The operations of the driver on a collection that change the database or
    compute from it.  [find] and [drop] are given with the store below. *)
Class MongoDriver : Type := {
  drv_update :
    string → Value → Value → gmap string Value →
    gmap string (list Entity) → Result Value * gmap string (list Entity);
  drv_map_reduce :
    string → list Value → gmap string Value →
    gmap string (list Entity) → Result string * gmap string (list Entity);
  drv_inline_map_reduce :
    string → list Value → gmap string Value →
    gmap string (list Entity) → Result (list Entity)
}.

Record Compiler : Type := mkCompiler {
  c_which : string;
  c_query : nat;
  c_db : option string
}.

(** The object that [build_query()] returns. *)
Record MongoQuery : Type := mkMongoQuery {
  mongo_query : Value;
  collection : string
}.

Section Backend.

Context `{MongoCompiler} `{MongoDriver}.

(** [_compiler_for_queryset(qs, which)] *)
Definition _compiler_for_queryset (qs : nat) (which : string) : M Compiler :=
  let* queryset := get_queryset qs in
  ret (mkCompiler which (qs_query queryset) (qs_db queryset)).

(** Modelled from the spec: the filter document of a query, see
    [MongoCompiler]. *)
Definition query_filter (q : Query) : Value :=
  match q with
  | RawQuery _ raw => raw
  | PlainQuery s => orm_filter s
  end.

(** Modelled from the spec: [compiler.build_query()], see [MongoCompiler]. *)
Definition build_query (model : string) (c : Compiler) : M MongoQuery :=
  let* q := get_query (c_query c) in
  ret (mkMongoQuery (query_filter q) (collection_of model)).

Definition driver_update (coll : string) (criteria update : Value)
    (options : gmap string Value) : M Value :=
  λ st, let '(r, c) := drv_update coll criteria update options (colls st) in
        (r, log (CallUpdate coll criteria update options)
                (set_colls (λ _, c) st)).

Definition driver_map_reduce (coll : string) (args : list Value)
    (kwargs : gmap string Value) : M string :=
  λ st, let '(r, c) := drv_map_reduce coll args kwargs (colls st) in
        (r, log (CallMapReduce coll args kwargs) (set_colls (λ _, c) st)).

Definition driver_inline_map_reduce (coll : string) (args : list Value)
    (kwargs : gmap string Value) : M (list Entity) :=
  λ st, (drv_inline_map_reduce coll args kwargs (colls st),
         log (CallInlineMapReduce coll args kwargs) st).

(** [collection.find()]: the documents of the collection, none when there is
    no such collection. *)
Definition driver_find (coll : string) : M (list Entity) :=
  λ st, (Ok (default [] (colls st !! coll)), log (CallFind coll) st).

(** [collection.drop()] *)
Definition driver_drop (coll : string) : M unit :=
  λ st, (Ok tt, log (CallDrop coll) (set_colls (delete coll) st)).

(** Modelled from the spec: [compiler.execute_update(update_dict, kwargs)]
    of the update compiler, which is not part of this file.  It executes an
    update against the driver with the filter of the query and the update
    document, forwards the options to the driver's update call, and returns
    what the driver acknowledges. *)
Definition execute_update (model : string) (c : Compiler) (update_dict : Value)
    (kwargs : gmap string Value) : M Value :=
  let* query := build_query model c in
  driver_update (collection query) (mongo_query query) update_dict kwargs.

End Backend.

(** ** RawQueryMixin and MongoDBManager *)

Record Manager : Type := mkManager {
  mgr_model : string;
  mgr_db : option string
}.

Section RawQueryMixin.

Context `{MongoCompiler} `{MongoDriver}.
Variable ALL_OPERATORS : list string.

(** [MongoDBManager.get_query_set()]: [MongoDBQuerySet(self.model,
    using=self._db)], whose query is a new [SQLQuery(model)]. *)
Definition get_query_set (self : Manager) : M nat :=
  let* lq := new_query (PlainQuery (sql_new (mgr_model self))) in
  new_queryset (mkQuerySet MongoDBQuerySet (mgr_model self) lq (mgr_db self) false).

(** [Manager.filter] of Django, for positional arguments: the filter of the
    manager's queryset. *)
Definition manager_filter (self : Manager) (args : list Value) : M nat :=
  let* qs := get_query_set self in
  _filter_or_exclude ALL_OPERATORS qs false args [].

(** [get_raw_query_set(raw_query)] *)
Definition get_raw_query_set (self : Manager) (raw_query : Value) : M nat :=
  let* lq := new_query (RawQuery_init (mgr_model self) raw_query) in
  new_queryset (mkQuerySet DjangoQuerySet (mgr_model self) lq (mgr_db self) false).

(** [raw_query(query=None)]: [query or {}] *)
Definition raw_query (self : Manager) (query : Value) : M nat :=
  get_raw_query_set self (if truthy query then query else VDict ∅).

(** [queryset._for_write = True] *)
Definition set_for_write (l : nat) : M unit :=
  let* qs := get_queryset l in
  modify (set_querysets
            (<[l := mkQuerySet (qs_class qs) (qs_model qs) (qs_query qs)
                               (qs_db qs) true]>)).

(** [raw_update(spec_or_q, update_dict, kwargs)].  The body ends after the
    call of [execute_update]: the function returns [None]. *)
Definition raw_update (self : Manager) (spec_or_q update_dict : Value)
    (kwargs : gmap string Value) : M Value :=
  let* queryset :=
    (if is_dict spec_or_q then get_raw_query_set self spec_or_q
     else manager_filter self [spec_or_q]) in
  set_for_write queryset ;;
  let* compiler := _compiler_for_queryset queryset "SQLUpdateCompiler" in
  let* _ack := execute_update (mgr_model self) compiler update_dict kwargs in
  ret VNone.

End RawQueryMixin.

(** ** Map/Reduce *)

Record MapReduceResult : Type := mkMapReduceResult {
  mr_model : string;
  mr_key : Value;
  mr_value : Value
}.

(** [MapReduceResult.from_entity(model, entity)]: [entity['_id']] and then
    [entity['value']] are read, each raises [KeyError] when absent. *)
Definition from_entity (model : string) (entity : Entity) : Result MapReduceResult :=
  match entity !! "_id" with
  | None => Raise (KeyError "_id")
  | Some k =>
      match entity !! "value" with
      | None => Raise (KeyError "value")
      | Some v => Ok (mkMapReduceResult model k v)
      end
  end.

(** [[MapReduceResult.from_entity(model, entity) for entity in entities]] *)
Fixpoint from_entities (model : string) (entities : list Entity)
    : Result (list MapReduceResult) :=
  match entities with
  | [] => Ok []
  | e :: rest =>
      match from_entity model e with
      | Raise ex => Raise ex
      | Ok r =>
          match from_entities model rest with
          | Raise ex => Raise ex
          | Ok rs => Ok (r :: rs)
          end
      end
  end.

(** What [map_reduce] returns: the generator of [_map_reduce_cpython], which
    is created, then suspended at its [yield] with the rest of the cursor, then
    finished; or the iterator over a list of the PyPy variant. *)
Inductive MapReduceIter : Type :=
  | GenCreated (model result_collection : string) (drop_collection : Value)
  | GenSuspended (model result_collection : string) (drop_collection : Value)
                 (cursor : list Entity)
  | GenFinished
  | ListIter (items : list MapReduceResult).

Section MapReduce.

Context `{MongoCompiler} `{MongoDriver}.

(** [ON_PYPY = hasattr(sys, 'pypy_version_info')] *)
Variable ON_PYPY : bool.

Definition lift {A} (r : Result A) : M A := λ st, (r, st).

(** [kwargs.setdefault(key, value)] *)
Definition setdefault (key : string) (value : Value)
    (kwargs : gmap string Value) : gmap string Value :=
  match kwargs !! key with
  | Some _ => kwargs
  | None => <[key := value]> kwargs
  end.

(** [self._get_query()] *)
Definition _get_query (self : nat) : M MongoQuery :=
  let* qs := get_queryset self in
  let* compiler := _compiler_for_queryset self "SQLCompiler" in
  build_query (qs_model qs) compiler.

(** The [finally] suite of [_map_reduce_cpython]. *)
Definition drop_if (drop_collection : Value) (result_collection : string) : M unit :=
  if truthy drop_collection then driver_drop result_collection else ret tt.

(** The loop of [_map_reduce_cpython] from the head of the [for], inside
    its [try]: the next entity is yielded, or the cursor is exhausted and
    the generator finishes; the [finally] suite runs when the body is left
    by exhaustion or by an exception. *)
Definition gen_resume (model result_collection : string)
    (drop_collection : Value) (cursor : list Entity)
    : M (option MapReduceResult * MapReduceIter) :=
  match cursor with
  | [] =>
      drop_if drop_collection result_collection ;;
      ret (None, GenFinished)
  | entity :: rest =>
      match from_entity model entity with
      | Ok r =>
          ret (Some r, GenSuspended model result_collection drop_collection rest)
      | Raise ex =>
          drop_if drop_collection result_collection ;;
          raise ex
      end
  end.

(** [next(it)]: [None] stands for [StopIteration]. *)
Definition iter_next (it : MapReduceIter)
    : M (option MapReduceResult * MapReduceIter) :=
  match it with
  | GenCreated model rc d =>
      let* cursor := driver_find rc in
      gen_resume model rc d cursor
  | GenSuspended model rc d cursor => gen_resume model rc d cursor
  | GenFinished => ret (None, GenFinished)
  | ListIter [] => ret (None, ListIter [])
  | ListIter (r :: rest) => ret (Some r, ListIter rest)
  end.

(** [it.close()], also what the collection of an abandoned generator does
    on CPython: a generator suspended at its [yield] leaves the [try] through
    its [finally] suite; one that never started has no suite to run. *)
Definition iter_close (it : MapReduceIter) : M MapReduceIter :=
  match it with
  | GenSuspended _ rc d _ => drop_if d rc ;; ret GenFinished
  | GenCreated _ _ _ | GenFinished => ret GenFinished
  | ListIter items => ret (ListIter items)
  end.

(** [list(it)]: [next] until [StopIteration].  [fuel] bounds the number of
    calls; the result is [None] when it does not suffice. *)
Fixpoint consume (fuel : nat) (it : MapReduceIter)
    : M (option (list MapReduceResult)) :=
  match fuel with
  | O => ret None
  | S n =>
      let* step := iter_next it in
      match step.1 with
      | None => ret (Some [])
      | Some r =>
          let* rest := consume n step.2 in
          ret (cons r <$> rest)
      end
  end.

(** [_map_reduce_cpython(result_collection, drop_collection)]: calling a
    generator function runs none of its body. *)
Definition _map_reduce_cpython (model result_collection : string)
    (drop_collection : Value) : M MapReduceIter :=
  ret (GenCreated model result_collection drop_collection).

(** [_map_reduce_pypy_drop_collection_hack(result_collection)] *)
Definition _map_reduce_pypy_drop_collection_hack
    (model result_collection : string) : M MapReduceIter :=
  finally
    (let* entities := driver_find result_collection in
     let* results := lift (from_entities model entities) in
     ret (ListIter results))
    (driver_drop result_collection).

(** [self.map_reduce(args, kwargs)] on the queryset [self]. *)
Definition map_reduce (self : nat) (args : list Value)
    (kwargs : gmap string Value) : M MapReduceIter :=
  let* qs := get_queryset self in
  let drop_collection := default (VBool false) (kwargs !! "drop_collection") in
  let kwargs := delete "drop_collection" kwargs in
  let* query := _get_query self in
  let kwargs := setdefault "query" (mongo_query query) kwargs in
  let* result_collection := driver_map_reduce (collection query) args kwargs in
  if truthy drop_collection && ON_PYPY
  then _map_reduce_pypy_drop_collection_hack (qs_model qs) result_collection
  else _map_reduce_cpython (qs_model qs) result_collection drop_collection.

(** [self.inline_map_reduce(args, kwargs)] *)
Definition inline_map_reduce (self : nat) (args : list Value)
    (kwargs : gmap string Value) : M (list MapReduceResult) :=
  let* qs := get_queryset self in
  let* query := _get_query self in
  let kwargs := setdefault "query" (mongo_query query) kwargs in
  let* entities := driver_inline_map_reduce (collection query) args kwargs in
  lift (from_entities (qs_model qs) entities).

(** [MongoDBManager.map_reduce] and [MongoDBManager.inline_map_reduce]: the
    operation on the manager's queryset. *)
Definition manager_map_reduce (self : Manager) (args : list Value)
    (kwargs : gmap string Value) : M MapReduceIter :=
  let* qs := new_query (PlainQuery (sql_new (mgr_model self))) in
  let* l := new_queryset
              (mkQuerySet MongoDBQuerySet (mgr_model self) qs (mgr_db self) false) in
  map_reduce l args kwargs.

Definition manager_inline_map_reduce (self : Manager) (args : list Value)
    (kwargs : gmap string Value) : M (list MapReduceResult) :=
  let* qs := new_query (PlainQuery (sql_new (mgr_model self))) in
  let* l := new_queryset
              (mkQuerySet MongoDBQuerySet (mgr_model self) qs (mgr_db self) false) in
  inline_map_reduce l args kwargs.

End MapReduce.

(** ** The keywords after the loop, as a function of the dictionary alone *)

Section KeywordsAfter.

Variable ALL_OPERATORS : list string.

(** The key under which the item with key [k] is kept: rewritten when the
    condition of line 110 holds, [k] itself otherwise. *)
Definition final_key (base : list string) (k : string) : string :=
  if is_rewritten base k then dotted_key ALL_OPERATORS k else k.

(** The first segment [f] of line 118. *)
Definition first_segment (base : list string) (k : string) : string :=
  PyStr.split_head (final_key base k) LOOKUP_SEP.

(** The dictionary after the loop, or the [KeyError] of a [del]. *)
Fixpoint kwargs_after (base : list string) (items : list (string * Value))
    (kwargs : gmap string Value) : Result (gmap string Value) :=
  match items with
  | [] => Ok kwargs
  | (k, v) :: rest =>
      if is_rewritten base k then
        match kwargs !! k with
        | None => Raise (KeyError k)
        | Some _ =>
            kwargs_after base rest
              (<[dotted_key ALL_OPERATORS k := v]> (delete k kwargs))
        end
      else kwargs_after base rest kwargs
  end.

(** The names under which the loop registers a field, in its order. *)
Fixpoint adhoc_names (base all : list string) (items : list (string * Value))
    : list string :=
  match items with
  | [] => []
  | (k, _) :: rest =>
      let f := first_segment base k in
      if is_adhoc all f then f :: adhoc_names base all rest
      else adhoc_names base all rest
  end.

(** The fields of a model after these registrations. *)
Definition register_all (names : list string) (meta : gmap string Field)
    : gmap string Field :=
  foldl (λ m f, <[f := AbstractIterableField]> m) meta names.

(** The model classes after these registrations on [model]. *)
Definition register_in (model : string) (names : list string)
    (ms : gmap string (gmap string Field)) : gmap string (gmap string Field) :=
  foldl (λ ms f, <[model := <[f := AbstractIterableField]> (default ∅ (ms !! model))]> ms)
        ms names.

End KeywordsAfter.

(** ** The query and the filter document of an update *)

Section UpdateQuery.

Context `{MongoCompiler}.

(** The query of the queryset that [raw_update] compiles: a [RawQuery]
    over the dict, or a fresh query filtered by the object. *)
Definition update_query (model : string) (spec_or_q : Value) : Query :=
  if is_dict spec_or_q then RawQuery (sql_new model) spec_or_q
  else PlainQuery (add_q (sql_clone (sql_new model)) (Q [spec_or_q] ∅)).

(** Its filter document. *)
Definition update_criteria (model : string) (spec_or_q : Value) : Value :=
  if is_dict spec_or_q then spec_or_q
  else orm_filter (add_q (sql_clone (sql_new model)) (Q [spec_or_q] ∅)).

End UpdateQuery.

(** ** Instances for the examples *)

Module Sample.

(** A query that records its limits and its predicates; [can_filter] is as
    in Django: no low mark and no high mark. *)
Record LimitQuery : Type := mkLimitQuery {
  lq_model : string;
  low_mark : nat;
  high_mark : option nat;
  where_ : list QNode
}.

#[export] Instance limit_query : DjangoQuery := {|
  SQLQuery := LimitQuery;
  sql_new m := mkLimitQuery m 0 None [];
  sql_clone q := q;
  can_filter q :=
    Nat.eqb (low_mark q) 0 && match high_mark q with None => true | Some _ => false end;
  add_q q node := mkLimitQuery (lq_model q) (low_mark q) (high_mark q) (where_ q ++ [node])
|}.

(** The predicates of a query as a document, and one collection per model. *)
#[export] Instance compiler : MongoCompiler := {|
  orm_filter q := VList (VObj <$> ((λ _, "predicate") <$> where_ q));
  collection_of m := m
|}.

Definition doc (k v : Value) : Entity := <["_id" := k]> (<["value" := v]> ∅).

(** A driver whose jobs count two keys, and which writes the result of
    [map_reduce] to the collection [mr_out]. *)
Definition job_result : list Entity :=
  [doc (VStr "a") (VInt 2); doc (VStr "b") (VInt 5)].

#[export] Instance driver : MongoDriver := {|
  drv_update coll criteria update options cs :=
    (Ok (VDict (<["n" := VInt 1]> ∅)), cs);
  drv_map_reduce coll args kwargs cs :=
    (Ok "mr_out", <["mr_out" := job_result]> cs);
  drv_inline_map_reduce coll args kwargs cs := Ok job_result
|}.

(** Modelled from the spec: the operator tables of
    [django_mongodb_engine.compiler] are not part of this file; these are
    the operator suffixes that the spec names. *)
Definition operators : list string := ["equals"; "gte"; "in"].

(** The model [Order] of the spec, with the mapping field [items]. *)
Definition order_meta : gmap string Field :=
  <["id" := mkField "AutoField" true false true]>
    (<["items" := mkField "DictField" false false true]> ∅).

(** A store with the queryset [0] on [Order], and the queryset [1] on which
    the slice of the first five results was taken. *)
Definition order_query : Query := PlainQuery (sql_new "Order").
Definition sliced_query : Query := PlainQuery (mkLimitQuery "Order" 0 (Some 5) []).
Definition order_queryset : QuerySet := mkQuerySet MongoDBQuerySet "Order" 0 None false.
Definition sliced_queryset : QuerySet := mkQuerySet MongoDBQuerySet "Order" 1 None false.

Definition store : Store :=
  mkStore
    (<[0 := order_query]> (<[1 := sliced_query]> ∅))
    (<[0 := order_queryset]> (<[1 := sliced_queryset]> ∅))
    (<["Order" := order_meta]> ∅)
    (<["Order" := []]> ∅)
    [].

Definition manager : Manager := mkManager "Order" None.

End Sample.

(** ** The keywords under their final keys *)

Section Renamed.

Variable ALL_OPERATORS : list string.


End Renamed.

(** ** Drivers that fail, for the examples *)

Module Faulty.

Import Sample.

(** A driver that cannot reach its server. *)
Definition down : MongoDriver := {|
  drv_update coll criteria update options cs :=
    (Raise (DriverError "connection refused"), cs);
  drv_map_reduce coll args kwargs cs :=
    (Raise (DriverError "connection refused"), cs);
  drv_inline_map_reduce coll args kwargs cs :=
    Raise (DriverError "connection refused")
|}.

(** A job whose second entity has no [value]. *)
Definition ragged_result : list Entity :=
  [doc (VStr "a") (VInt 2); <["_id" := VStr "b"]> ∅].

Definition ragged : MongoDriver := {|
  drv_update coll criteria update options cs :=
    (Ok (VDict (<["n" := VInt 1]> ∅)), cs);
  drv_map_reduce coll args kwargs cs :=
    (Ok "mr_out", <["mr_out" := ragged_result]> cs);
  drv_inline_map_reduce coll args kwargs cs := Ok ragged_result
|}.

End Faulty.

(** * Properties *)

(** ** Strings *)

Section PyStrFacts.

Import PyStr.

(** Concatenation, which [simpl] leaves folded. *)
Lemma str_app_cons (x : Ascii.ascii) (a b : string) : String x a +:+ b = String x (a +:+ b).
Proof. reflexivity. Qed.

Lemma str_app_nil_l (b : string) : "" +:+ b = b.
Proof. reflexivity. Qed.

Lemma str_app_assoc (a b c : string) : (a +:+ b) +:+ c = a +:+ (b +:+ c).
Proof. induction a as [|x a IH]; [done|]. rewrite !str_app_cons. by f_equal. Qed.

Lemma str_app_length (a b : string) :
  String.length (a +:+ b) = String.length a + String.length b.
Proof. induction a as [|x a IH]; [done|]. rewrite str_app_cons. simpl. by f_equal. Qed.

Lemma eqb_longer (c : Ascii.ascii) (p s : string) : String.eqb (String c (p +:+ s)) s = false.
Proof.
  apply String.eqb_neq. intros Heq.
  apply (f_equal String.length) in Heq. simpl in Heq. rewrite str_app_length in Heq. lia.
Qed.

(** One step of the two scans for a suffix. *)
Lemma strip_suffix_unfold (s p : string) :
  strip_suffix s p
  = if String.eqb s p then Some EmptyString
    else match s with
         | EmptyString => None
         | String c s' => String c <$> strip_suffix s' p
         end.
Proof. by destruct s. Qed.

Lemma endswith_unfold (s p : string) :
  endswith s p
  = if String.eqb s p then true
    else match s with
         | EmptyString => false
         | String _ s' => endswith s' p
         end.
Proof. by destruct s. Qed.

(** [strip_suffix] and [endswith] against concatenation. *)
Lemma strip_suffix_app (pre p : string) : strip_suffix (pre +:+ p) p = Some pre.
Proof.
  induction pre as [|c pre IH].
  - rewrite str_app_nil_l, strip_suffix_unfold. by rewrite String.eqb_refl.
  - rewrite str_app_cons, strip_suffix_unfold, eqb_longer, IH. done.
Qed.

Lemma strip_suffix_Some (s p pre : string) :
  strip_suffix s p = Some pre → s = pre +:+ p.
Proof.
  revert pre. induction s as [|c s IH]; intros pre; rewrite strip_suffix_unfold.
  - destruct (String.eqb_spec "" p) as [<-|]; [by intros [= <-]|done].
  - destruct (String.eqb_spec (String c s) p) as [<-|]; [by intros [= <-]|].
    destruct (strip_suffix s p) as [pre'|] eqn:Hs; [|done].
    intros [= <-]. rewrite str_app_cons. f_equal. by apply IH.
Qed.

Lemma endswith_strip_suffix (s p : string) :
  endswith s p = true ↔ is_Some (strip_suffix s p).
Proof.
  induction s as [|c s IH]; rewrite endswith_unfold, strip_suffix_unfold.
  - destruct (String.eqb "" p); [by split; [eexists|]|]. split; [done|by intros [? ?]].
  - destruct (String.eqb (String c s) p); [by split; [eexists|]|].
    rewrite IH. destruct (strip_suffix s p); simpl; split; intros [? ?]; by eexists.
Qed.

Lemma endswith_app (pre p : string) : endswith (pre +:+ p) p = true.
Proof. apply endswith_strip_suffix. rewrite strip_suffix_app. by eexists. Qed.

Lemma endswith_split (s p : string) : endswith s p = true → ∃ pre, s = pre +:+ p.
Proof.
  intros [pre Hpre]%endswith_strip_suffix. exists pre. by apply strip_suffix_Some.
Qed.

Lemma strip_suffix_None (s p : string) : endswith s p = false → strip_suffix s p = None.
Proof.
  intros Hends. destruct (strip_suffix s p) as [pre|] eqn:Hs; [|done].
  assert (endswith s p = true) by (apply endswith_strip_suffix; by eexists). congruence.
Qed.

(** The last character *)

Lemma last_char_app (a b : string) : b ≠ "" → last_char (a +:+ b) = last_char b.
Proof.
  intros Hb. induction a as [|x a IH]; [done|].
  rewrite str_app_cons. simpl. rewrite IH.
  destruct (a +:+ b) eqn:Hab; [|done].
  destruct a; [by rewrite str_app_nil_l in Hab|by rewrite str_app_cons in Hab].
Qed.

(** The last character of a word is a lowercase letter. *)
Lemma last_char_all (P : Ascii.ascii → bool) (s : string) c :
  all_chars P s = true → last_char s = Some c → P c = true.
Proof.
  induction s as [|x s IH]; [done|]. simpl.
  intros [Hx Hs]%andb_true_iff. destruct s; [by intros [= <-]|]. by apply IH.
Qed.

Lemma is_word_last (s : string) :
  is_word s = true → ∃ c, last_char s = Some c ∧ is_lower c = true.
Proof.
  intros Hw. destruct s as [|x s]; [done|]. unfold is_word in Hw.
  assert (∃ c, last_char (String x s) = Some c) as [c Hc].
  { clear Hw. revert x. induction s as [|y s IH]; intros x; [by eexists|]. apply (IH y). }
  exists c. split; [done|]. by eapply last_char_all.
Qed.

(** A key that ends with a word does not end with a newline. *)
Lemma word_end_no_newline (k s lit : string) :
  is_word s = true → endswith k s = true →
  strip_suffix k (lit +:+ newline) = None.
Proof.
  intros Hw [pre ->]%endswith_split.
  destruct (strip_suffix _ _) as [pre'|] eqn:Hs; [|done]. exfalso.
  apply strip_suffix_Some in Hs.
  apply (f_equal last_char) in Hs.
  destruct (is_word_last s Hw) as (c & Hc & Hlow).
  rewrite last_char_app in Hs by (by destruct s).
  rewrite <- str_app_assoc, last_char_app in Hs by done.
  rewrite Hc in Hs. simpl in Hs. injection Hs as ->. done.
Qed.

(** The scan for the operator *)

Lemma mark_operator_found (ops : list string) (p op : string) :
  is_word op = true →
  List.find (endswith (p +:+ LOOKUP_SEP +:+ op)) ops = Some op →
  mark_operator ops (p +:+ LOOKUP_SEP +:+ op) = p +:+ "#" +:+ op.
Proof.
  intros Hw. induction ops as [|s ops IH]; simpl; [done|].
  destruct (endswith (p +:+ LOOKUP_SEP +:+ op) s) eqn:Hends; [|done].
  intros [= ->]. unfold re_sub_end.
  rewrite (word_end_no_newline _ op) by done.
  by rewrite strip_suffix_app.
Qed.

(** When no operator ends the key after a separator, the scan leaves the key
    as it is, also when it stops at an operator that ends the key without one. *)
Lemma mark_operator_none (ops : list string) (k : string) :
  Forall (λ s, is_word s = true) ops →
  (∀ s, s ∈ ops → endswith k (LOOKUP_SEP +:+ s) = false) →
  mark_operator ops k = k.
Proof.
  induction 1 as [|s ops Hw _ IH]; intros Hnone; simpl; [done|].
  destruct (endswith k s) eqn:Hends.
  - unfold re_sub_end. rewrite (word_end_no_newline _ s) by done.
    rewrite strip_suffix_None; [done|]. apply Hnone, list_elem_of_here.
  - apply IH. intros s' Hs'. by apply Hnone, list_elem_of_further.
Qed.

(** Separators to dots *)


Lemma dots_from_nil n : replace_from n "" LOOKUP_SEP "." = "".
Proof. by destruct n. Qed.

(** One step of the replacement of separators. *)
Lemma dots_from_skip c (s : string) :
  replace_from 1 (String c s) LOOKUP_SEP "." = replace_from 0 s LOOKUP_SEP ".".
Proof. done. Qed.

Lemma startswith_sep c (s : string) :
  startswith (String c s) LOOKUP_SEP = Ascii.eqb "_" c && startswith s "_".
Proof. unfold LOOKUP_SEP. cbn [startswith]. by destruct (Ascii.eqb "_" c). Qed.

Lemma dots_from_cons c (s : string) :
  replace_from 0 (String c s) LOOKUP_SEP "."
  = if Ascii.eqb "_" c && startswith s "_"
    then String "." (replace_from 1 s LOOKUP_SEP ".")
    else String c (replace_from 0 s LOOKUP_SEP ".").
Proof. cbn [replace_from]. by rewrite startswith_sep. Qed.

Lemma startswith_app_barrier (a : string) c (b : string) :
  c ≠ "_"%char → startswith (a +:+ String c b) "_" = startswith a "_".
Proof.
  intros Hc. destruct a as [|x a].
  - rewrite str_app_nil_l. cbn [startswith].
    destruct (Ascii.eqb_spec "_" c) as [<-|]; done.
  - rewrite str_app_cons. cbn [startswith]. by destruct (Ascii.eqb "_" x).
Qed.

(** A character that is no underscore is kept, and the text on either side
    of it is rewritten on its own. *)
Lemma dots_from_barrier n (a : string) c (b : string) :
  c ≠ "_"%char → n = 0 ∨ (n = 1 ∧ a ≠ "") →
  replace_from n (a +:+ String c b) LOOKUP_SEP "."
  = replace_from n a LOOKUP_SEP "." +:+ String c (replace_from 0 b LOOKUP_SEP ".").
Proof.
  intros Hc. revert n. induction a as [|x a IH]; intros n Hn.
  - destruct Hn as [->|[_ ?]]; [|done].
    rewrite str_app_nil_l, dots_from_cons.
    destruct (Ascii.eqb_spec "_" c) as [<-|]; done.
  - rewrite str_app_cons. destruct Hn as [->|[-> _]].
    + rewrite !dots_from_cons, startswith_app_barrier by done.
      destruct (Ascii.eqb "_" x && startswith a "_") eqn:Hm.
      * rewrite str_app_cons. f_equal. apply IH. right. split; [done|].
        apply andb_true_iff in Hm as [_ Hm]. by destruct a.
      * rewrite str_app_cons. f_equal. apply IH. by left.
    + rewrite !dots_from_skip. apply IH. by left.
Qed.

Lemma dots_barrier (a : string) c (b : string) :
  c ≠ "_"%char → dots (a +:+ String c b) = dots a +:+ String c (dots b).
Proof. intros Hc. apply dots_from_barrier; [done|by left]. Qed.

Lemma dots_no_separator (s : string) : contains s LOOKUP_SEP = false → dots s = s.
Proof.
  unfold dots, replace. induction s as [|c s IH]; [done|].
  cbn [contains]. rewrite startswith_sep, dots_from_cons.
  destruct (Ascii.eqb "_" c && startswith s "_"); [done|].
  intros Hc. f_equal. by apply IH.
Qed.

(** Marks to separators *)


Lemma unhash_cons c (s : string) :
  unhash (String c s)
  = if Ascii.eqb "#" c then LOOKUP_SEP +:+ unhash s else String c (unhash s).
Proof.
  unfold unhash, replace. cbn [replace_from startswith].
  by destruct (Ascii.eqb "#" c).
Qed.

(** The replacement of the mark goes through concatenation, and keeps a
    string without mark. *)
Lemma unhash_app (a b : string) : unhash (a +:+ b) = unhash a +:+ unhash b.
Proof.
  induction a as [|x a IH]; [done|].
  rewrite str_app_cons, !unhash_cons, IH.
  destruct (Ascii.eqb "#" x); [|done]. by rewrite str_app_assoc.
Qed.

Lemma unhash_no_hash (s : string) : no_hash s = true → unhash s = s.
Proof.
  induction s as [|c s IH]; [done|]. unfold no_hash. simpl.
  intros [Hc Hs]%andb_true_iff. rewrite unhash_cons, Ascii.eqb_sym.
  apply negb_true_iff in Hc. rewrite Hc. f_equal. by apply IH.
Qed.

Lemma dots_from_no_hash n (s : string) :
  no_hash s = true → no_hash (replace_from n s LOOKUP_SEP ".") = true.
Proof.
  revert n. induction s as [|c s IH]; intros n; [by destruct n|].
  unfold no_hash in *. simpl all_chars at 1. intros [Hc Hs]%andb_true_iff.
  destruct n as [|n].
  - rewrite dots_from_cons. destruct (Ascii.eqb "_" c && startswith s "_"); simpl.
    + by apply IH.
    + rewrite Hc. by apply IH.
  - cbn [replace_from]. by apply IH.
Qed.

(** Words *)

Lemma all_chars_impl (P Q : Ascii.ascii → bool) (s : string) :
  (∀ c, P c = true → Q c = true) → all_chars P s = true → all_chars Q s = true.
Proof.
  intros HPQ. induction s as [|c s IH]; [done|]. simpl.
  intros [Hc Hs]%andb_true_iff. rewrite (HPQ _ Hc). by apply IH.
Qed.

(** A word has no mark and no separator. *)
Lemma is_word_all (s : string) : is_word s = true → all_chars is_lower s = true.
Proof. by destruct s. Qed.

Lemma is_word_no_hash (s : string) : is_word s = true → no_hash s = true.
Proof.
  intros Hw%is_word_all. revert Hw. apply all_chars_impl.
  intros c Hc. apply negb_true_iff, Ascii.eqb_neq. by intros ->.
Qed.

Lemma no_underscore_no_separator (s : string) :
  all_chars (λ c, negb (Ascii.eqb "_" c)) s = true → contains s LOOKUP_SEP = false.
Proof.
  induction s as [|c s IH]; [done|]. cbn [all_chars].
  intros [Hc Hs]%andb_true_iff. cbn [contains]. rewrite startswith_sep.
  apply negb_true_iff in Hc. rewrite Hc. by apply IH.
Qed.

Lemma is_word_no_separator (s : string) :
  is_word s = true → contains s LOOKUP_SEP = false.
Proof.
  intros Hw%is_word_all. apply no_underscore_no_separator.
  revert Hw. apply all_chars_impl.
  intros c Hc. apply negb_true_iff, Ascii.eqb_neq. by intros <-.
Qed.

(** ** The new key *)

(** A key [p__op] that has no [#] and in which the first operator of the
    table that ends the key is [op]: the separators of [p] become dots and
    the operator keeps its separator. *)
Lemma dotted_key_operator (ops : list string) (p op : string) :
  is_word op = true →
  no_hash p = true →
  List.find (endswith (p +:+ LOOKUP_SEP +:+ op)) ops = Some op →
  dotted_key ops (p +:+ LOOKUP_SEP +:+ op) = dots p +:+ LOOKUP_SEP +:+ op.
Proof.
  intros Hw Hp Hfind. unfold dotted_key.
  rewrite (mark_operator_found _ _ _ Hw Hfind).
  fold (dots (p +:+ "#" +:+ op)). fold (unhash (dots (p +:+ "#" +:+ op))).
  change (p +:+ "#" +:+ op) with (p +:+ String "#" op).
  rewrite dots_barrier by done.
  rewrite (dots_no_separator op) by by apply is_word_no_separator.
  rewrite unhash_app, unhash_cons. simpl.
  rewrite (unhash_no_hash op) by by apply is_word_no_hash.
  rewrite unhash_no_hash; [done|]. by apply dots_from_no_hash.
Qed.

(** A key without [#] that no operator of the table ends after a separator:
    every separator becomes a dot. *)
Lemma dotted_key_literal (ops : list string) (k : string) :
  Forall (λ s, is_word s = true) ops →
  (∀ s, s ∈ ops → endswith k (LOOKUP_SEP +:+ s) = false) →
  no_hash k = true →
  dotted_key ops k = dots k.
Proof.
  intros Hw Hnone Hk. unfold dotted_key.
  rewrite (mark_operator_none _ _ Hw Hnone).
  fold (dots k). fold (unhash (dots k)).
  apply unhash_no_hash. by apply dots_from_no_hash.
Qed.


(** The first segment of a key that starts with a field name. *)
Lemma startswith_field_sep (c : Ascii.ascii) (f r : string) :
  endswith (String c f) "_" = false →
  Ascii.eqb "_" c && startswith f "_" = false →
  Ascii.eqb "_" c && startswith (f +:+ LOOKUP_SEP +:+ r) "_" = false.
Proof.
  intros Hend Hm. destruct f as [|y f]; [|done].
  destruct (Ascii.eqb_spec "_" c) as [<-|]; done.
Qed.

Lemma endswith_tail (c : Ascii.ascii) (f p : string) :
  endswith (String c f) p = false → endswith f p = false.
Proof.
  rewrite endswith_unfold. by destruct (String.eqb (String c f) p).
Qed.

Lemma split_head_field (f r : string) :
  contains f LOOKUP_SEP = false → endswith f "_" = false →
  split_head (f +:+ LOOKUP_SEP +:+ r) LOOKUP_SEP = f.
Proof.
  induction f as [|c f IH]; intros Hsep Hend; [done|].
  rewrite str_app_cons. cbn [split_head]. rewrite startswith_sep.
  cbn [contains] in Hsep. rewrite startswith_sep in Hsep.
  destruct (Ascii.eqb "_" c && startswith f "_") eqn:Hm; [done|].
  rewrite (startswith_field_sep _ _ _ Hend Hm). f_equal.
  apply IH; [done|]. by eapply endswith_tail.
Qed.

Lemma contains_field_sep (f r : string) :
  contains (f +:+ LOOKUP_SEP +:+ r) LOOKUP_SEP = true.
Proof.
  induction f as [|c f IH]; [done|].
  rewrite str_app_cons. cbn [contains]. rewrite IH. by destruct (startswith _ _).
Qed.

(** The dots of a key with one separator after a field name. *)
Lemma dots_field (f r : string) :
  contains f LOOKUP_SEP = false → endswith f "_" = false →
  dots (f +:+ LOOKUP_SEP +:+ r) = f +:+ "." +:+ dots r.
Proof.
  unfold dots, replace. induction f as [|c f IH]; intros Hsep Hend; [done|].
  rewrite str_app_cons, dots_from_cons.
  cbn [contains] in Hsep. rewrite startswith_sep in Hsep.
  destruct (Ascii.eqb "_" c && startswith f "_") eqn:Hm; [done|].
  rewrite (startswith_field_sep _ _ _ Hend Hm), str_app_cons. f_equal.
  apply IH; [done|]. by eapply endswith_tail.
Qed.

End PyStrFacts.


Ltac unfold_m :=
  unfold bind, ret, raise, gets, modify, lift, get_queryset, get_query,
    new_query, new_queryset, get_meta in *.

Section Loop.
Context `{DjangoQuery}.
Variable ALL_OPERATORS : list string.

(** The loop returns the dictionary that [kwargs_after] computes, and its
    only effect on the store is the registration of [adhoc_names]. *)
Lemma rewrite_kwargs_result model base all items kwargs (st : Store) :
  (rewrite_kwargs ALL_OPERATORS model base all items kwargs st).1
  = kwargs_after ALL_OPERATORS base items kwargs.
Proof.
  revert kwargs st. induction items as [|[k v] rest IH]; intros kwargs st; [done|].
  simpl. unfold bind at 1. unfold rewrite_item.
  destruct (is_rewritten base k) eqn:Hrw.
  - destruct (kwargs !! k) as [w|] eqn:Hk.
    + unfold bind, ret, contribute_to_class, modify; simpl.
      destruct (is_adhoc _ _); simpl; apply IH.
    + done.
  - unfold bind, ret, contribute_to_class, modify; simpl.
    destruct (is_adhoc _ _); simpl; apply IH.
Qed.

Lemma rewrite_kwargs_store model base all items kwargs (st : Store) kw :
  kwargs_after ALL_OPERATORS base items kwargs = Ok kw →
  (rewrite_kwargs ALL_OPERATORS model base all items kwargs st).2
  = set_models (register_in model (adhoc_names ALL_OPERATORS base all items)) st.
Proof.
  revert kwargs st. induction items as [|[k v] rest IH]; intros kwargs st Hok.
  { by destruct st. }
  simpl in *. unfold bind at 1. unfold rewrite_item, first_segment, final_key.
  destruct (is_rewritten base k) eqn:Hrw.
  - destruct (kwargs !! k) as [w|] eqn:Hk; [|done].
    unfold bind, ret, contribute_to_class, modify; simpl.
    destruct (is_adhoc _ _); simpl; rewrite (IH _ _ Hok); by destruct st.
  - unfold bind, ret, contribute_to_class, modify; simpl.
    destruct (is_adhoc _ _); simpl; rewrite (IH _ _ Hok); by destruct st.
Qed.


(** Reading the registrations back. *)
Lemma register_in_lookup model names (ms : gmap string (gmap string Field)) :
  default ∅ (register_in model names ms !! model)
  = register_all names (default ∅ (ms !! model)).
Proof.
  revert ms. induction names as [|f names IH]; intros ms; [done|].
  unfold register_in, register_all in *. cbn [foldl].
  rewrite IH. by rewrite lookup_insert_eq.
Qed.

Lemma register_in_other model names (ms : gmap string (gmap string Field)) m :
  m ≠ model → register_in model names ms !! m = ms !! m.
Proof.
  intros Hne. revert ms. induction names as [|f names IH]; intros ms; [done|].
  unfold register_in in *. cbn [foldl].
  rewrite IH. by rewrite lookup_insert_ne.
Qed.

Lemma register_all_in names (meta : gmap string Field) f :
  f ∈ names → register_all names meta !! f = Some AbstractIterableField.
Proof.
  revert meta. unfold register_all.
  induction names as [|g names IH] using rev_ind; intros meta Hin; [set_solver|].
  rewrite foldl_snoc. destruct (decide (g = f)) as [->|Hne].
  - by rewrite lookup_insert_eq.
  - rewrite lookup_insert_ne by done. apply IH.
    apply elem_of_app in Hin as [Hin|Hin]; [done|].
    apply list_elem_of_singleton in Hin. congruence.
Qed.

Lemma register_all_notin names (meta : gmap string Field) f :
  f ∉ names → register_all names meta !! f = meta !! f.
Proof.
  revert meta. unfold register_all.
  induction names as [|g names IH]; intros meta Hin; [done|].
  apply not_elem_of_cons in Hin as [Hne Hin].
  cbn [foldl]. rewrite IH by done. by rewrite lookup_insert_ne.
Qed.

(** The whole of a call of [_filter_or_exclude] that gets past its
    assertion and whose loop finds every key it deletes. *)
Lemma filter_or_exclude_run self negate args items (st : Store) qs q kw :
  querysets st !! self = Some qs →
  queries st !! qs_query qs = Some q →
  nonempty args || nonempty items = false ∨ can_filter (query_sql q) = true →
  kwargs_after ALL_OPERATORS
    (base_field_names (default ∅ (models st !! qs_model qs))) items (list_to_map items) = Ok kw →
  let lq := fresh (dom (queries st)) in
  let lqs := fresh (dom (querysets st)) in
  _filter_or_exclude ALL_OPERATORS self negate args items st
  = (Ok lqs,
     mkStore
       (<[lq := query_add_q (query_clone q) (added_node negate args kw)]> (queries st))
       (<[lqs := mkQuerySet (qs_class qs) (qs_model qs) lq (qs_db qs) (qs_for_write qs)]>
          (querysets st))
       (register_in (qs_model qs)
          (adhoc_names ALL_OPERATORS
             (base_field_names (default ∅ (models st !! qs_model qs)))
             (get_all_field_names (default ∅ (models st !! qs_model qs))) items)
          (models st))
       (colls st) (trace st)).
Proof.
  intros Hqs Hq Hguard Hkw lq lqs.
  unfold _filter_or_exclude.
  unfold bind at 1. unfold get_queryset at 1. rewrite Hqs.
  unfold bind at 1.
  assert ((if nonempty args || nonempty items
           then let* q0 := get_query (qs_query qs) in
                if can_filter (query_sql q0) then ret tt
                else raise (AssertionError "Cannot filter a query once a slice has been taken.")
           else ret tt) st = (Ok tt, st)) as ->.
  { destruct (nonempty args || nonempty items); [|done].
    destruct Hguard as [|Hcf]; [done|].
    unfold bind, get_query. rewrite Hq, Hcf. done. }
  unfold bind at 1. unfold _clone. unfold_m. rewrite Hqs, Hq. simpl.
  match goal with |- context [rewrite_kwargs ?o ?m ?b ?a ?i ?k ?s] =>
    pose proof (rewrite_kwargs_result m b a i k s) as Hr;
    pose proof (rewrite_kwargs_store m b a i k s kw Hkw) as Hs;
    destruct (rewrite_kwargs o m b a i k s) as [r st1] end.
  simpl in Hr, Hs. rewrite Hkw in Hr. subst r st1. simpl.
  rewrite lookup_insert_eq. simpl. rewrite lookup_insert_eq.
  f_equal. unfold set_queries, set_models; simpl. f_equal.
  by rewrite insert_insert_eq.
Qed.
(** A call that returns found the receiver's query, got past the
    assertion, and deleted only keys that were there. *)
Lemma filter_or_exclude_inv self negate args items (st st' : Store) qs clone :
  querysets st !! self = Some qs →
  _filter_or_exclude ALL_OPERATORS self negate args items st = (Ok clone, st') →
  ∃ q kw,
    queries st !! qs_query qs = Some q
    ∧ (nonempty args || nonempty items = false ∨ can_filter (query_sql q) = true)
    ∧ kwargs_after ALL_OPERATORS
        (base_field_names (default ∅ (models st !! qs_model qs))) items
        (list_to_map items) = Ok kw.
Proof.
  intros Hqs Hrun.
  unfold _filter_or_exclude in Hrun.
  unfold bind at 1 in Hrun. unfold get_queryset at 1 in Hrun. rewrite Hqs in Hrun.
  destruct (queries st !! qs_query qs) as [q|] eqn:Hq.
  2: { exfalso. unfold bind at 1 in Hrun.
       destruct (nonempty args || nonempty items).
       - unfold bind, get_query in Hrun. by rewrite Hq in Hrun.
       - unfold ret at 1 in Hrun. unfold _clone in Hrun. unfold_m.
         by rewrite Hqs, Hq in Hrun. }
  exists q.
  assert (nonempty args || nonempty items = false ∨ can_filter (query_sql q) = true)
    as Hguard.
  { destruct (nonempty args || nonempty items) eqn:Hne; [|by left].
    destruct (can_filter (query_sql q)) eqn:Hcf; [by right|].
    exfalso. unfold bind at 1 in Hrun. unfold bind at 1 in Hrun.
    unfold get_query at 1 in Hrun. by rewrite Hq, Hcf in Hrun. }
  destruct (kwargs_after ALL_OPERATORS
              (base_field_names (default ∅ (models st !! qs_model qs))) items
              (list_to_map items)) as [kw|e] eqn:Hkw; [by exists kw|].
  exfalso.
  unfold bind at 1 in Hrun.
  assert ((if nonempty args || nonempty items
           then let* q0 := get_query (qs_query qs) in
                if can_filter (query_sql q0) then ret tt
                else raise (AssertionError "Cannot filter a query once a slice has been taken.")
           else ret tt) st = (Ok tt, st)) as Hg.
  { destruct (nonempty args || nonempty items); [|done].
    destruct Hguard as [|Hcf]; [done|].
    unfold bind, get_query. by rewrite Hq, Hcf. }
  rewrite Hg in Hrun.
  unfold bind at 1 in Hrun. unfold _clone in Hrun. unfold_m.
  rewrite Hqs, Hq in Hrun. simpl in Hrun.
  match type of Hrun with context [rewrite_kwargs ?o ?m ?b ?a ?i ?k ?s] =>
    pose proof (rewrite_kwargs_result m b a i k s) as Hr;
    destruct (rewrite_kwargs o m b a i k s) as [r st1] end.
  simpl in Hr. rewrite Hkw in Hr. by subst r.
Qed.

(** A new reference is not in use. *)
Lemma fresh_query_unused (st : Store) : queries st !! fresh (dom (queries st)) = None.
Proof. apply not_elem_of_dom, is_fresh. Qed.

Lemma fresh_queryset_unused (st : Store) :
  querysets st !! fresh (dom (querysets st)) = None.
Proof. apply not_elem_of_dom, is_fresh. Qed.

(** C9.  A call of [_filter_or_exclude] that returns gives a queryset that
    is a new object, with the class, model and database of the receiver and
    with a query object of its own; that query is the clone of the receiver's
    query with the predicate added (negated for [exclude]).  The receiver,
    its query, and every other queryset and query are as they were. *)
Theorem filter_returns_clone (self : nat) (negate : bool) (args : list Value)
    (items : list (string * Value)) (st st' : Store) (qs : QuerySet) (clone : nat) :
  querysets st !! self = Some qs →
  _filter_or_exclude ALL_OPERATORS self negate args items st = (Ok clone, st') →
  ∃ q kw cqs,
    queries st !! qs_query qs = Some q
    ∧ kwargs_after ALL_OPERATORS
        (base_field_names (default ∅ (models st !! qs_model qs))) items
        (list_to_map items) = Ok kw
    ∧ clone ≠ self
    ∧ querysets st !! clone = None
    ∧ querysets st' !! clone = Some cqs
    ∧ qs_class cqs = qs_class qs ∧ qs_model cqs = qs_model qs
    ∧ qs_db cqs = qs_db qs
    ∧ qs_query cqs ≠ qs_query qs
    ∧ queries st !! qs_query cqs = None
    ∧ queries st' !! qs_query cqs
      = Some (query_add_q (query_clone q) (added_node negate args kw))
    ∧ querysets st' !! self = Some qs
    ∧ queries st' !! qs_query qs = Some q
    ∧ (∀ l, l ≠ clone → querysets st' !! l = querysets st !! l)
    ∧ (∀ l, l ≠ qs_query cqs → queries st' !! l = queries st !! l).
Proof.
  intros Hqs Hrun.
  destruct (filter_or_exclude_inv _ _ _ _ _ _ _ _ Hqs Hrun) as (q & kw & Hq & Hguard & Hkw).
  rewrite (filter_or_exclude_run _ negate args _ _ _ _ _ Hqs Hq Hguard Hkw) in Hrun.
  injection Hrun as <- <-. simpl.
  pose proof (fresh_query_unused st) as Hfq.
  pose proof (fresh_queryset_unused st) as Hfqs.
  assert (fresh (dom (querysets st)) ≠ self) as Hne1 by (intros E; congruence).
  assert (fresh (dom (queries st)) ≠ qs_query qs) as Hne2 by (intros E; congruence).
  exists q, kw. eexists.
  split; [done|]. split; [done|]. split; [done|]. split; [done|].
  split; [apply lookup_insert_eq|]. simpl.
  split; [done|]. split; [done|]. split; [done|]. split; [done|]. split; [done|].
  split; [apply lookup_insert_eq|].
  split; [by rewrite lookup_insert_ne|].
  split; [by rewrite lookup_insert_ne|].
  split; intros l Hl; by rewrite lookup_insert_ne.
Qed.

(** The names in [base_field_names] have no dot. *)
Lemma collect_base_no_dot fields f :
  f ∈ collect_base fields → PyStr.contains f "." = false.
Proof.
  induction fields as [|[g field] rest IH]; simpl; [by intros ?%elem_of_nil|].
  destruct (is_dot_field g field) eqn:Hd; [|done].
  intros [->|Hin]%elem_of_cons; [|by apply IH].
  unfold is_dot_field in Hd. apply andb_true_iff in Hd as [Hd _].
  by apply negb_true_iff in Hd.
Qed.

(** A key whose first segment has a dot is not rewritten: the names in
    [base_field_names] have none. *)
Lemma dotted_segment_not_rewritten meta k :
  PyStr.contains (PyStr.split_head k LOOKUP_SEP) "." = true →
  is_rewritten (base_field_names meta) k = false.
Proof.
  intros Hdot. unfold is_rewritten. apply andb_false_iff. right.
  apply bool_decide_eq_false. intros Hin.
  apply collect_base_no_dot in Hin. congruence.
Qed.

(** The names of the model are those under which it has a field. *)
Lemma all_field_names_lookup (meta : gmap string Field) f :
  f ∈ get_all_field_names meta ↔ is_Some (meta !! f).
Proof.
  unfold get_all_field_names. rewrite list_elem_of_fmap. split.
  - intros ([g field] & -> & Hin). apply elem_of_map_to_list in Hin. by eexists.
  - intros [field Hf]. exists (f, field). split; [done|].
    by apply elem_of_map_to_list.
Qed.

(** The names registered are the first segments, after the rewriting, that
    have a dot and are no field name. *)
Lemma adhoc_names_elem base all items name :
  name ∈ adhoc_names ALL_OPERATORS base all items ↔
  ∃ k v, (k, v) ∈ items ∧ first_segment ALL_OPERATORS base k = name
         ∧ is_adhoc all name = true.
Proof.
  induction items as [|[k v] rest IH]; simpl.
  { split; [by intros ?%elem_of_nil|]. by intros (? & ? & ?%elem_of_nil & _). }
  destruct (is_adhoc all (first_segment ALL_OPERATORS base k)) eqn:Ha.
  - rewrite elem_of_cons, IH. split.
    + intros [->|(k' & v' & Hin & Hf & Had)].
      * exists k, v. split; [apply list_elem_of_here|done].
      * exists k', v'. split; [by apply list_elem_of_further|done].
    + intros (k' & v' & [Heq|Hin]%elem_of_cons & Hf & Had).
      * left. by injection Heq as -> ->.
      * right. by exists k', v'.
  - rewrite IH. split.
    + intros (k' & v' & Hin & Hf & Had).
      exists k', v'. split; [by apply list_elem_of_further|done].
    + intros (k' & v' & [Heq|Hin]%elem_of_cons & Hf & Had).
      * injection Heq as -> ->. congruence.
      * by exists k', v'.
Qed.

(** C6, as the code has it.  In a call that returns, a field is registered
    on the model for exactly the keywords whose first segment after the
    rewriting (the key as passed when it is not rewritten) has a dot and
    is not a field name of the model when the call starts: the model then
    has an [AbstractIterableField] under that segment, and every other name
    and every other model is as it was.  A keyword whose own first segment
    has a dot and is no field name is among those that register. *)
Theorem adhoc_field_registration (self : nat) (negate : bool) (args : list Value)
    (items : list (string * Value)) (st st' : Store) (qs : QuerySet) (clone : nat) :
  querysets st !! self = Some qs →
  _filter_or_exclude ALL_OPERATORS self negate args items st = (Ok clone, st') →
  let meta := default ∅ (models st !! qs_model qs) in
  let meta' := default ∅ (models st' !! qs_model qs) in
  let base := base_field_names meta in
  let all := get_all_field_names meta in
  (∀ k v, (k, v) ∈ items →
          is_adhoc all (first_segment ALL_OPERATORS base k) = true →
          meta' !! first_segment ALL_OPERATORS base k = Some AbstractIterableField)
  ∧ (∀ name,
       (∀ k v, (k, v) ∈ items → first_segment ALL_OPERATORS base k = name →
               is_adhoc all name = false) →
       meta' !! name = meta !! name)
  ∧ (∀ k v, (k, v) ∈ items →
            PyStr.contains (PyStr.split_head k LOOKUP_SEP) "." = true →
            meta !! PyStr.split_head k LOOKUP_SEP = None →
            meta' !! PyStr.split_head k LOOKUP_SEP = Some AbstractIterableField)
  ∧ (∀ m, m ≠ qs_model qs → models st' !! m = models st !! m).
Proof.
  intros Hqs Hrun meta meta' base all.
  destruct (filter_or_exclude_inv _ _ _ _ _ _ _ _ Hqs Hrun) as (q & kw & Hq & Hguard & Hkw).
  rewrite (filter_or_exclude_run _ negate args _ _ _ _ _ Hqs Hq Hguard Hkw) in Hrun.
  injection Hrun as _ <-. subst meta'. simpl.
  rewrite register_in_lookup. fold meta base all.
  assert (∀ k v, (k, v) ∈ items →
            is_adhoc all (first_segment ALL_OPERATORS base k) = true →
            register_all (adhoc_names ALL_OPERATORS base all items) meta
              !! first_segment ALL_OPERATORS base k = Some AbstractIterableField) as Hreg.
  { intros k v Hin Had. apply register_all_in, adhoc_names_elem. by exists k, v. }
  split; [done|]. split; [|split].
  - intros name Hnone. apply register_all_notin.
    intros (k & v & Hin & Hf & Had)%adhoc_names_elem.
    specialize (Hnone k v Hin Hf). congruence.
  - intros k v Hin Hdot Hnew.
    assert (first_segment ALL_OPERATORS base k = PyStr.split_head k LOOKUP_SEP) as Hfs.
    { unfold first_segment, final_key, base.
      by rewrite dotted_segment_not_rewritten. }
    rewrite <- Hfs. apply (Hreg k v Hin). rewrite Hfs.
    unfold is_adhoc. rewrite Hdot. simpl. apply negb_true_iff, bool_decide_eq_false.
    unfold all. rewrite all_field_names_lookup, Hnew. by intros [? ?].
  - intros m Hm. by apply register_in_other.
Qed.

(** C3, as the code has it.  On a queryset whose query can no longer be
    filtered, a call with at least one positional or keyword argument
    raises the assertion error, whatever the arguments are, and changes
    nothing. *)
Theorem filter_after_slice_fails (self : nat) (negate : bool)
    (args : list Value) (items : list (string * Value)) (st : Store)
    (qs : QuerySet) (q : Query) :
  querysets st !! self = Some qs →
  queries st !! qs_query qs = Some q →
  can_filter (query_sql q) = false →
  nonempty args || nonempty items = true →
  _filter_or_exclude ALL_OPERATORS self negate args items st
  = (Raise (AssertionError "Cannot filter a query once a slice has been taken."), st).
Proof.
  intros Hqs Hq Hcf Hne.
  unfold _filter_or_exclude. unfold_m.
  by rewrite Hqs, Hne, Hq, Hcf.
Qed.

End Loop.

(** ** The value of a keyword *)

Section Values.
Variable ALL_OPERATORS : list string.

(** A binding of the dictionary survives the rest of the loop when no later
    keyword is rewritten onto its key or deleted from under it. *)
Lemma kwargs_after_keeps base (items : list (string * Value))
    (kwargs kw : gmap string Value) key v :
  kwargs !! key = Some v →
  (∀ k' v', (k', v') ∈ items → is_rewritten base k' = true →
            dotted_key ALL_OPERATORS k' ≠ key ∧ k' ≠ key) →
  kwargs_after ALL_OPERATORS base items kwargs = Ok kw →
  kw !! key = Some v.
Proof.
  revert kwargs. induction items as [|[k' v'] rest IH]; intros kwargs Hkey Hother; simpl.
  { by intros [= <-]. }
  destruct (is_rewritten base k') eqn:Hrw.
  - destruct (kwargs !! k') as [w|]; [|done].
    destruct (Hother k' v' (list_elem_of_here _ rest) Hrw) as [Hne1 Hne2].
    apply IH.
    + rewrite lookup_insert_ne by done. by rewrite lookup_delete_ne.
    + intros k2 v2 Hin. apply (Hother k2 v2). by apply list_elem_of_further.
  - apply IH; [done|]. intros k2 v2 Hin. apply (Hother k2 v2). by apply list_elem_of_further.
Qed.

(** The value of a keyword is bound to its final key after the loop, when no
    other keyword that is rewritten ends on that key or is that key. *)
Lemma kwargs_after_value base (items : list (string * Value))
    (kwargs kw : gmap string Value) k v :
  NoDup items.*1 →
  (k, v) ∈ items →
  kwargs !! k = Some v →
  (∀ k' v', (k', v') ∈ items → k' ≠ k → is_rewritten base k' = true →
            dotted_key ALL_OPERATORS k' ≠ final_key ALL_OPERATORS base k
            ∧ k' ≠ final_key ALL_OPERATORS base k) →
  kwargs_after ALL_OPERATORS base items kwargs = Ok kw →
  kw !! final_key ALL_OPERATORS base k = Some v.
Proof.
  unfold final_key. destruct (is_rewritten base k) eqn:Hrw.
  - (* rewritten: its turn binds the new key to the value of the listing *)
    intros Hnd Hin _. revert kwargs.
    induction items as [|[k' v'] rest IH]; intros kwargs Hother;
      [by apply elem_of_nil in Hin|].
    simpl in Hnd. apply NoDup_cons in Hnd as [Hfresh Hnd]. simpl.
    apply elem_of_cons in Hin as [[= <- <-]|Hin].
    + rewrite Hrw. destruct (kwargs !! k) as [w|]; [|done].
      apply kwargs_after_keeps; [apply lookup_insert_eq|].
      intros k2 v2 Hin2 Hrw2.
      apply (Hother k2 v2); [by apply list_elem_of_further| |done].
      intros ->. apply Hfresh. apply list_elem_of_fmap. by exists (k, v2).
    + destruct (is_rewritten base k') eqn:Hrw'.
      * destruct (kwargs !! k') as [w|]; [|done].
        apply IH; [done|done|].
        intros k2 v2 Hin2. apply (Hother k2 v2). by apply list_elem_of_further.
      * apply IH; [done|done|].
        intros k2 v2 Hin2. apply (Hother k2 v2). by apply list_elem_of_further.
  - intros Hnd Hin Hk Hother. apply kwargs_after_keeps; [done|].
    intros k' v' Hin' Hrw'. apply (Hother k' v' Hin'); [|done]. intros ->. congruence.
Qed.
End Values.

(** ** A keyword on a document-like field, where the rewriting is as the
    spec describes it *)

Section Keywords.

Context `{DjangoQuery}.
Variable ALL_OPERATORS : list string.

(** No mark in a concatenation. *)
Lemma no_hash_app (a b : string) :
  no_hash (a +:+ b) = no_hash a && no_hash b.
Proof.
  unfold no_hash. induction a as [|x a IH]; [done|].
  rewrite str_app_cons. cbn [all_chars]. rewrite IH. by rewrite andb_assoc.
Qed.

(** A key that starts with a document-like field and a separator is
    rewritten. *)
Lemma is_rewritten_field base (field rest : string) :
  field ∈ base →
  PyStr.contains field LOOKUP_SEP = false → PyStr.endswith field "_" = false →
  is_rewritten base (field +:+ LOOKUP_SEP +:+ rest) = true.
Proof.
  intros Hin Hsep Hend. unfold is_rewritten.
  rewrite contains_field_sep, split_head_field by done.
  by apply bool_decide_eq_true.
Qed.

(** X3.  The keyword [field__path__op]: when neither the field nor the path has a
    [#] and [op] is the first operator of the table that ends the key, the
    final key is [field.path__op], with the separators inside the path turned
    into dots. *)
Lemma final_key_operator base (field path op : string) :
  field ∈ base →
  PyStr.contains field LOOKUP_SEP = false → PyStr.endswith field "_" = false →
  no_hash field = true → no_hash path = true → is_word op = true →
  List.find
    (PyStr.endswith (field +:+ LOOKUP_SEP +:+ path +:+ LOOKUP_SEP +:+ op))
    ALL_OPERATORS = Some op →
  final_key ALL_OPERATORS base (field +:+ LOOKUP_SEP +:+ path +:+ LOOKUP_SEP +:+ op)
  = field +:+ "." +:+ dots path +:+ LOOKUP_SEP +:+ op.
Proof.
  intros Hin Hsep Hend Hf Hp Hw Hfind. unfold final_key.
  rewrite is_rewritten_field by done.
  assert (field +:+ LOOKUP_SEP +:+ path +:+ LOOKUP_SEP +:+ op
          = (field +:+ LOOKUP_SEP +:+ path) +:+ LOOKUP_SEP +:+ op) as Hassoc.
  { by rewrite !str_app_assoc. }
  rewrite Hassoc in Hfind |- *.
  rewrite dotted_key_operator; [|done| |done].
  - rewrite dots_field by done. by rewrite !str_app_assoc.
  - rewrite !no_hash_app, Hf, Hp. done.
Qed.

(** X4.  The keyword [field__rest] without [#] that no operator of the table ends
    after a separator: the final key is [field.rest], with every separator
    turned into a dot. *)
Lemma final_key_literal base (field rest : string) :
  field ∈ base →
  PyStr.contains field LOOKUP_SEP = false → PyStr.endswith field "_" = false →
  Forall (λ s, is_word s = true) ALL_OPERATORS →
  (∀ s, s ∈ ALL_OPERATORS →
        PyStr.endswith (field +:+ LOOKUP_SEP +:+ rest) (LOOKUP_SEP +:+ s) = false) →
  no_hash (field +:+ LOOKUP_SEP +:+ rest) = true →
  final_key ALL_OPERATORS base (field +:+ LOOKUP_SEP +:+ rest)
  = field +:+ "." +:+ dots rest.
Proof.
  intros Hin Hsep Hend Hw Hnone Hk. unfold final_key.
  rewrite is_rewritten_field by done.
  rewrite dotted_key_literal by done. by apply dots_field.
Qed.

(** X5.  In a call that returns, the predicate added to the clone binds the final
    key of a keyword to the value that was passed with it, provided no other
    keyword is rewritten onto that key or is that key. *)
Lemma filter_keyword_binding (self : nat) (negate : bool) (args : list Value)
    (items : list (string * Value)) (st st' : Store) (qs : QuerySet) (clone : nat)
    (k : string) (v : Value) :
  querysets st !! self = Some qs →
  _filter_or_exclude ALL_OPERATORS self negate args items st = (Ok clone, st') →
  NoDup items.*1 →
  (k, v) ∈ items →
  let base := base_field_names (default ∅ (models st !! qs_model qs)) in
  (∀ k' v', (k', v') ∈ items → k' ≠ k → is_rewritten base k' = true →
            dotted_key ALL_OPERATORS k' ≠ final_key ALL_OPERATORS base k
            ∧ k' ≠ final_key ALL_OPERATORS base k) →
  ∃ q cqs kw,
    queries st !! qs_query qs = Some q
    ∧ querysets st' !! clone = Some cqs
    ∧ queries st' !! qs_query cqs
      = Some (query_add_q (query_clone q) (added_node negate args kw))
    ∧ kw !! final_key ALL_OPERATORS base k = Some v.
Proof.
  intros Hqs Hrun Hnd Hin base Hother.
  destruct (filter_or_exclude_inv _ _ _ _ _ _ _ _ _ Hqs Hrun) as (q & kw & Hq & Hguard & Hkw).
  rewrite (filter_or_exclude_run _ _ negate args _ _ _ _ _ Hqs Hq Hguard Hkw) in Hrun.
  injection Hrun as <- <-. simpl.
  exists q. eexists. exists kw.
  split; [done|]. split; [apply lookup_insert_eq|]. simpl.
  split; [apply lookup_insert_eq|].
  apply (kwargs_after_value ALL_OPERATORS base items (list_to_map items)); try done.
  by apply elem_of_list_to_map_1.
Qed.


End Keywords.


Section FromEntity.

(** An entity with the two keys converts. *)
Lemma from_entity_lookup model (entity : Entity) k v :
  entity !! "_id" = Some k → entity !! "value" = Some v →
  from_entity model entity = Ok (mkMapReduceResult model k v).
Proof. intros Hk Hv. unfold from_entity. by rewrite Hk, Hv. Qed.

(** C8.  For a model and the entity with [_id] bound to [k] and [value]
    bound to [v], [from_entity] returns an entry whose key is [k], whose
    value is [v] and whose model is the model given. *)
Theorem from_entity_id_value (model : string) (k v : Value) :
  ∃ r, from_entity model (<["_id" := k]> (<["value" := v]> ∅)) = Ok r
       ∧ mr_key r = k ∧ mr_value r = v ∧ mr_model r = model.
Proof.
  eexists. split.
  - apply from_entity_lookup.
    + by rewrite lookup_insert_eq.
    + rewrite lookup_insert_ne by done. by rewrite lookup_insert_eq.
  - done.
Qed.

(** The list comprehension converts the entities one for one, in order. *)
Lemma from_entities_Forall2 model ents rs :
  from_entities model ents = Ok rs ↔
  Forall2 (λ e r, from_entity model e = Ok r) ents rs.
Proof.
  revert rs. induction ents as [|e ents IH]; intros rs; simpl.
  - split; [by intros [= <-]; constructor|]. by intros ->%Forall2_nil_inv_l.
  - destruct (from_entity model e) as [r|ex] eqn:He.
    + destruct (from_entities model ents) as [rs'|ex] eqn:Hrest.
      * split.
        -- intros [= <-]. constructor; [done|]. by apply IH.
        -- intros (r' & rs'' & Hr & Hrs & ->)%Forall2_cons_inv_l.
           apply IH in Hrs. congruence.
      * split; [done|].
        intros (r' & rs'' & Hr & Hrs & ->)%Forall2_cons_inv_l.
        by apply IH in Hrs.
    + split; [done|].
      intros (r' & rs'' & Hr & Hrs & ->)%Forall2_cons_inv_l. congruence.
Qed.

(** Entities that all have the two keys convert, none is lost. *)
Lemma from_entities_total model (ents : list Entity) :
  Forall (λ e : Entity, is_Some (e !! "_id") ∧ is_Some (e !! "value")) ents →
  ∃ rs, from_entities model ents = Ok rs.
Proof.
  induction 1 as [|e ents [[k Hk] [v Hv]] _ [rs IH]]; simpl; [by eexists|].
  rewrite (from_entity_lookup _ _ _ _ Hk Hv), IH. by eexists.
Qed.

End FromEntity.

Section RawUpdate.

Context `{MongoCompiler} `{MongoDriver}.
Variable ALL_OPERATORS : list string.

(** [self.filter(arg)] on the manager: a new queryset over a fresh query
    filtered by [arg]; the database is not touched. *)
Lemma manager_filter_run (self : Manager) (arg : Value) (st : Store) :
  can_filter (sql_new (mgr_model self)) = true →
  ∃ l lq st1,
    manager_filter ALL_OPERATORS self [arg] st = (Ok l, st1)
    ∧ querysets st !! l = None
    ∧ querysets st1 !! l
      = Some (mkQuerySet MongoDBQuerySet (mgr_model self) lq (mgr_db self) false)
    ∧ queries st1 !! lq
      = Some (PlainQuery (add_q (sql_clone (sql_new (mgr_model self))) (Q [arg] ∅)))
    ∧ colls st1 = colls st ∧ trace st1 = trace st.
Proof.
  intros Hcf. unfold manager_filter, get_query_set.
  unfold bind at 1. unfold bind at 1. unfold new_query at 1. unfold new_queryset at 1.
  set (lq0 := fresh (dom (queries st))).
  set (l0 := fresh (dom (querysets (set_queries (insert lq0 (PlainQuery (sql_new (mgr_model self)))) st)))).
  set (st0 := set_querysets _ _).
  assert (querysets st0 !! l0 = Some (mkQuerySet MongoDBQuerySet (mgr_model self) lq0 (mgr_db self) false)) as Hqs.
  { unfold st0. simpl. apply lookup_insert_eq. }
  assert (queries st0 !! lq0 = Some (PlainQuery (sql_new (mgr_model self)))) as Hq.
  { unfold st0. simpl. apply lookup_insert_eq. }
  eexists _, _, _. split.
  { eapply (filter_or_exclude_run ALL_OPERATORS l0 false [arg] [] st0 _ _ ∅ Hqs Hq).
    - by right.
    - done. }
  simpl. split.
  { pose proof (fresh_queryset_unused st0) as Hf. unfold st0 in Hf. simpl in Hf.
    apply lookup_insert_None in Hf as [Hf _]. done. }
  split; [apply lookup_insert_eq|]. split; [apply lookup_insert_eq|]. done.
Qed.

(** The queryset that [raw_update] builds, ready for the compiler. *)
Lemma raw_update_queryset (self : Manager) (spec_or_q : Value) (st : Store) :
  (is_dict spec_or_q = false → can_filter (sql_new (mgr_model self)) = true) →
  ∃ l qs st1,
    (if is_dict spec_or_q then get_raw_query_set self spec_or_q
     else manager_filter ALL_OPERATORS self [spec_or_q]) st = (Ok l, st1)
    ∧ querysets st !! l = None
    ∧ querysets st1 !! l = Some qs
    ∧ qs_model qs = mgr_model self ∧ qs_db qs = mgr_db self
    ∧ queries st1 !! qs_query qs = Some (update_query (mgr_model self) spec_or_q)
    ∧ colls st1 = colls st ∧ trace st1 = trace st.
Proof.
  intros Hcf. unfold update_query. destruct (is_dict spec_or_q).
  - unfold get_raw_query_set. unfold_m. eexists _, _, _. split; [done|]. simpl.
    split; [apply fresh_queryset_unused|].
    split; [apply lookup_insert_eq|]. simpl.
    split; [done|]. split; [done|]. split; [apply lookup_insert_eq|done].
  - destruct (manager_filter_run self spec_or_q st (Hcf eq_refl))
      as (l & lq & st1 & Hrun & Hnew & Hqs & Hq & Hc & Ht).
    eexists _, _, _. split; [done|]. split; [done|]. split; [done|]. simpl. done.
Qed.

(** The whole of [raw_update]. *)
Lemma raw_update_run (self : Manager) (spec_or_q update_dict : Value)
    (kwargs : gmap string Value) (st : Store) :
  (is_dict spec_or_q = false → can_filter (sql_new (mgr_model self)) = true) →
  let coll := collection_of (mgr_model self) in
  let criteria := update_criteria (mgr_model self) spec_or_q in
  let out := drv_update coll criteria update_dict kwargs (colls st) in
  ∃ l qs st',
    raw_update ALL_OPERATORS self spec_or_q update_dict kwargs st
    = (match out.1 with Ok _ => Ok VNone | Raise e => Raise e end, st')
    ∧ trace st' = trace st ++ [CallUpdate coll criteria update_dict kwargs]
    ∧ colls st' = out.2
    ∧ querysets st !! l = None
    ∧ querysets st' !! l = Some qs
    ∧ qs_for_write qs = true
    ∧ queries st' !! qs_query qs = Some (update_query (mgr_model self) spec_or_q).
Proof.
  intros Hcf coll criteria out.
  destruct (raw_update_queryset self spec_or_q st Hcf)
    as (l & qs & st1 & Hrun & Hnew & Hqs & Hm & Hdb & Hq & Hc & Ht).
  unfold raw_update. unfold bind at 1. rewrite Hrun.
  unfold set_for_write, _compiler_for_queryset, execute_update, build_query,
    driver_update.
  unfold_m. rewrite Hqs. simpl. rewrite lookup_insert_eq. simpl. rewrite Hq.
  assert (query_filter (update_query (mgr_model self) spec_or_q) = criteria) as ->.
  { unfold update_query, criteria, update_criteria. by destruct (is_dict spec_or_q). }
  simpl. rewrite Hc. fold coll. fold out. destruct out as [[ack|e] c]; simpl.
  - exists l. eexists _, _. split; [done|]. simpl. rewrite Ht.
    split; [done|]. split; [done|]. split; [done|].
    split; [apply lookup_insert_eq|]. simpl. done.
  - exists l. eexists _, _. split; [done|]. simpl. rewrite Ht.
    split; [done|]. split; [done|]. split; [done|].
    split; [apply lookup_insert_eq|]. simpl. done.
Qed.

(** C5.  [raw_update] makes exactly one call of the driver, an update, on the
    collection of the model, with [update_dict] as its update document and
    the keyword arguments as its options.  Its filter document is
    [spec_or_q] itself when that is a dict, and the translation of a fresh
    query filtered by [spec_or_q] otherwise.  The queryset it compiles is a
    new one with [_for_write] set, over a [RawQuery] with the dict as
    [raw_query] in the first case and over the filtered query in the
    second.  A fresh query is taken to be filterable. *)
Theorem raw_update_one_driver_call (self : Manager) (spec_or_q update_dict : Value)
    (kwargs : gmap string Value) (st : Store) :
  (is_dict spec_or_q = false → can_filter (sql_new (mgr_model self)) = true) →
  let st' := (raw_update ALL_OPERATORS self spec_or_q update_dict kwargs st).2 in
  trace st'
  = trace st ++ [CallUpdate (collection_of (mgr_model self))
                   (if is_dict spec_or_q then spec_or_q
                    else orm_filter (add_q (sql_clone (sql_new (mgr_model self)))
                                           (Q [spec_or_q] ∅)))
                   update_dict kwargs]
  ∧ ∃ l qs,
      querysets st !! l = None
      ∧ querysets st' !! l = Some qs
      ∧ qs_for_write qs = true
      ∧ queries st' !! qs_query qs
        = Some (if is_dict spec_or_q
                then RawQuery (sql_new (mgr_model self)) spec_or_q
                else PlainQuery (add_q (sql_clone (sql_new (mgr_model self)))
                                       (Q [spec_or_q] ∅))).
Proof.
  intros Hcf st'.
  destruct (raw_update_run self spec_or_q update_dict kwargs st Hcf)
    as (l & qs & st1 & Hrun & Ht & _ & Hnew & Hqs & Hw & Hq).
  subst st'. rewrite Hrun. simpl. split; [done|].
  exists l, qs. done.
Qed.

(** Were a fresh query not filterable, the filter of the manager would raise. *)
Lemma manager_filter_sliced (self : Manager) (arg : Value) (st : Store) :
  can_filter (sql_new (mgr_model self)) = false →
  ∃ e, (manager_filter ALL_OPERATORS self [arg] st).1 = Raise e.
Proof.
  intros Hcf. unfold manager_filter, get_query_set, _filter_or_exclude.
  unfold_m. simpl. rewrite lookup_insert_eq. simpl. rewrite lookup_insert_eq.
  simpl. rewrite Hcf. by eexists.
Qed.

(** C10.  A call of [raw_update] that returns, returns [None], although the
    update call of the driver returned an acknowledgment: what
    [execute_update] returns is dropped. *)
Theorem raw_update_returns_none (self : Manager) (spec_or_q update_dict : Value)
    (kwargs : gmap string Value) (st : Store) (v : Value) :
  (raw_update ALL_OPERATORS self spec_or_q update_dict kwargs st).1 = Ok v →
  v = VNone
  ∧ ∃ ack, (drv_update (collection_of (mgr_model self))
              (update_criteria (mgr_model self) spec_or_q)
              update_dict kwargs (colls st)).1 = Ok ack.
Proof.
  intros Hret.
  destruct (decide (is_dict spec_or_q = false
                    ∧ can_filter (sql_new (mgr_model self)) = false)) as [[Hd Hcf]|Hok].
  - exfalso. unfold raw_update in Hret. rewrite Hd in Hret.
    destruct (manager_filter_sliced self spec_or_q st Hcf) as [e He].
    unfold bind at 1 in Hret.
    destruct (manager_filter ALL_OPERATORS self [spec_or_q] st) as [r st1].
    simpl in He. by subst r.
  - assert (is_dict spec_or_q = false → can_filter (sql_new (mgr_model self)) = true)
      as Hcf.
    { intros Hd. destruct (can_filter (sql_new (mgr_model self))); [done|].
      by destruct Hok. }
    destruct (raw_update_run self spec_or_q update_dict kwargs st Hcf)
      as (l & qs & st1 & Hrun & _).
    rewrite Hrun in Hret. simpl in Hret.
    destruct (drv_update _ _ _ _ _) as [[ack|e] c]; simpl in *; [|done].
    split; [congruence|by eexists].
Qed.

End RawUpdate.

Section MapReduceProperties.

Context `{MongoCompiler} `{MongoDriver}.
Variable ON_PYPY : bool.

(** [_get_query] on a queryset that is in the store. *)
Lemma get_query_run (self : nat) (st : Store) qs q :
  querysets st !! self = Some qs →
  queries st !! qs_query qs = Some q →
  _get_query self st
  = (Ok (mkMongoQuery (query_filter q) (collection_of (qs_model qs))), st).
Proof.
  intros Hqs Hq. unfold _get_query, _compiler_for_queryset, build_query.
  unfold_m. rewrite Hqs. simpl. rewrite Hqs. simpl. by rewrite Hq.
Qed.

(** The whole of [inline_map_reduce]. *)
Lemma inline_map_reduce_run (self : nat) (args : list Value)
    (kwargs : gmap string Value) (st : Store) qs q :
  querysets st !! self = Some qs →
  queries st !! qs_query qs = Some q →
  let coll := collection_of (qs_model qs) in
  let kw := setdefault "query" (query_filter q) kwargs in
  inline_map_reduce self args kwargs st
  = (match drv_inline_map_reduce coll args kw (colls st) with
     | Ok ents => from_entities (qs_model qs) ents
     | Raise e => Raise e
     end,
     log (CallInlineMapReduce coll args kw) st).
Proof.
  intros Hqs Hq coll kw. unfold inline_map_reduce.
  unfold bind at 1. unfold get_queryset at 1. rewrite Hqs.
  unfold bind at 1. rewrite (get_query_run _ _ _ _ Hqs Hq). simpl.
  unfold bind, driver_inline_map_reduce, lift. fold coll kw.
  by destruct (drv_inline_map_reduce coll args kw (colls st)).
Qed.

(** C7.  [inline_map_reduce] makes one call of the driver, its
    [inline_map_reduce], and none that creates or drops a collection: the
    collections are as before.  A [drop_collection] among the keyword
    arguments is not taken out, it goes to the driver with the others.
    When the call returns, it returns the list of the entries of the
    entities that the driver reported, one for one and in their order; it
    does return when the driver does and every entity has its two keys. *)
Theorem inline_map_reduce_in_driver_order (self : nat) (args : list Value)
    (kwargs : gmap string Value) (st : Store) (qs : QuerySet) (q : Query) :
  querysets st !! self = Some qs →
  queries st !! qs_query qs = Some q →
  let coll := collection_of (qs_model qs) in
  let kw := setdefault "query" (query_filter q) kwargs in
  let out := inline_map_reduce self args kwargs st in
  trace out.2 = trace st ++ [CallInlineMapReduce coll args kw]
  ∧ colls out.2 = colls st
  ∧ kw !! "drop_collection" = kwargs !! "drop_collection"
  ∧ (∀ rs, out.1 = Ok rs →
       ∃ ents, drv_inline_map_reduce coll args kw (colls st) = Ok ents
               ∧ Forall2 (λ e r, from_entity (qs_model qs) e = Ok r) ents rs)
  ∧ (∀ ents, drv_inline_map_reduce coll args kw (colls st) = Ok ents →
       Forall (λ e : Entity, is_Some (e !! "_id") ∧ is_Some (e !! "value")) ents →
       ∃ rs, out.1 = Ok rs).
Proof.
  intros Hqs Hq coll kw out. subst out.
  rewrite (inline_map_reduce_run _ _ _ _ _ _ Hqs Hq). fold coll kw. simpl.
  split; [done|]. split; [done|]. split.
  { unfold kw, setdefault. destruct (kwargs !! "query"); [done|].
    by rewrite lookup_insert_ne. }
  split.
  - intros rs Hrs. destruct (drv_inline_map_reduce coll args kw (colls st)) as [ents|e];
      [|done].
    exists ents. split; [done|]. by apply from_entities_Forall2.
  - intros ents -> Hwf. by apply from_entities_total.
Qed.

(** The [finally] suite does not raise. *)
Lemma drop_if_ok (d : Value) (rc : string) (st : Store) :
  drop_if d rc st
  = (Ok tt, if truthy d then log (CallDrop rc) (set_colls (delete rc) st) else st).
Proof. unfold drop_if. by destruct (truthy d). Qed.

(** A suspended generator that is resumed until it stops yields the entries
    of the rest of its cursor and then runs its [finally] suite; an entity
    without its keys ends it with the [KeyError], also through the suite. *)
Lemma consume_suspended model rc d (cursor : list Entity) (st : Store) fuel :
  length cursor < fuel →
  consume fuel (GenSuspended model rc d cursor) st
  = (match from_entities model cursor with
     | Ok rs => Ok (Some rs)
     | Raise e => Raise e
     end,
     if truthy d then log (CallDrop rc) (set_colls (delete rc) st) else st).
Proof.
  revert fuel. induction cursor as [|e rest IH]; intros [|fuel] Hlt; simpl in Hlt; try lia.
  - simpl. unfold bind, ret. rewrite drop_if_ok. done.
  - cbn [consume iter_next gen_resume from_entities].
    destruct (from_entity model e) as [r|ex].
    + unfold bind at 1. unfold ret at 1. cbn [fst snd].
      unfold bind at 1. rewrite IH by lia.
      by destruct (from_entities model rest).
    + unfold bind, raise. rewrite drop_if_ok. done.
Qed.

(** A generator consumed from its creation finds the entities first. *)
Lemma consume_created model rc d (st : Store) fuel :
  length (default [] (colls st !! rc)) < fuel →
  consume fuel (GenCreated model rc d) st
  = (match from_entities model (default [] (colls st !! rc)) with
     | Ok rs => Ok (Some rs)
     | Raise e => Raise e
     end,
     let st1 := log (CallFind rc) st in
     if truthy d then log (CallDrop rc) (set_colls (delete rc) st1) else st1).
Proof.
  intros Hlt.
  pose proof (consume_suspended model rc d (default [] (colls st !! rc))
                (log (CallFind rc) st) fuel Hlt) as Hs.
  destruct fuel as [|fuel]; [lia|].
  cbn [consume iter_next] in *. unfold driver_find. unfold bind at 2. exact Hs.
Qed.




(** A sequence that is closed before its end: the generator that was
    resumed at least once drops the collection when [drop_collection] is true;
    with a false [drop_collection] nothing is dropped. *)
Lemma iter_close_suspended model rc d (cursor : list Entity) (st : Store) :
  iter_close (GenSuspended model rc d cursor) st
  = (Ok GenFinished,
     if truthy d then log (CallDrop rc) (set_colls (delete rc) st) else st).
Proof. unfold iter_close, bind. by rewrite drop_if_ok. Qed.

Lemma iter_close_created model rc d (st : Store) :
  iter_close (GenCreated model rc d) st = (Ok GenFinished, st).
Proof. done. Qed.

(** [map_reduce] up to what it returns, when the job of the driver gives
    the collection [rc]. *)
Lemma map_reduce_run (self : nat) (args : list Value) (kwargs : gmap string Value)
    (st : Store) qs q rc c1 :
  querysets st !! self = Some qs →
  queries st !! qs_query qs = Some q →
  let d := default (VBool false) (kwargs !! "drop_collection") in
  let coll := collection_of (qs_model qs) in
  let kw := setdefault "query" (query_filter q) (delete "drop_collection" kwargs) in
  drv_map_reduce coll args kw (colls st) = (Ok rc, c1) →
  let st1 := log (CallMapReduce coll args kw) (set_colls (λ _, c1) st) in
  map_reduce ON_PYPY self args kwargs st
  = if truthy d && ON_PYPY
    then (match from_entities (qs_model qs) (default [] (c1 !! rc)) with
          | Ok rs => Ok (ListIter rs)
          | Raise e => Raise e
          end,
          log (CallDrop rc) (set_colls (delete rc) (log (CallFind rc) st1)))
    else (Ok (GenCreated (qs_model qs) rc d), st1).
Proof.
  intros Hqs Hq d coll kw Hdrv st1. unfold map_reduce.
  unfold bind at 1. unfold get_queryset at 1. rewrite Hqs.
  unfold bind at 1. rewrite (get_query_run _ _ _ _ Hqs Hq). cbn [mongo_query collection].
  fold d coll kw. unfold bind at 1. unfold driver_map_reduce. rewrite Hdrv. fold st1.
  destruct (truthy d && ON_PYPY); [|done].
  unfold _map_reduce_pypy_drop_collection_hack, finally, driver_find, driver_drop.
  unfold bind, lift, ret. simpl.
  by destruct (from_entities (qs_model qs) (default [] (c1 !! rc))).
Qed.

(** A call of [map_reduce] that returns had its job run by the driver. *)
Lemma map_reduce_inv (self : nat) (args : list Value) (kwargs : gmap string Value)
    (st st1 : Store) qs q it :
  querysets st !! self = Some qs →
  queries st !! qs_query qs = Some q →
  map_reduce ON_PYPY self args kwargs st = (Ok it, st1) →
  ∃ rc c1,
    drv_map_reduce (collection_of (qs_model qs)) args
      (setdefault "query" (query_filter q) (delete "drop_collection" kwargs))
      (colls st) = (Ok rc, c1).
Proof.
  intros Hqs Hq Hrun. unfold map_reduce in Hrun.
  unfold bind at 1 in Hrun. unfold get_queryset at 1 in Hrun. rewrite Hqs in Hrun.
  unfold bind at 1 in Hrun. rewrite (get_query_run _ _ _ _ Hqs Hq) in Hrun.
  cbn [mongo_query collection] in Hrun.
  unfold bind at 1 in Hrun. unfold driver_map_reduce in Hrun.
  destruct (drv_map_reduce _ _ _ _) as [[rc|e] c1]; [|done]. by exists rc, c1.
Qed.



End MapReduceProperties.

(** * Further properties *)

(** ** The shape of a rewritten key *)

Section KeyShape.

Import PyStr.

(** The replacement of the mark leaves no mark. *)
Lemma unhash_has_no_hash (s : string) : no_hash (unhash s) = true.
Proof.
  induction s as [|c s IH]; [done|].
  rewrite unhash_cons. destruct (Ascii.eqb "#" c) eqn:Hc.
  - by rewrite no_hash_app, IH.
  - unfold no_hash in *. cbn [all_chars]. by rewrite Ascii.eqb_sym, Hc.
Qed.

(** X2.  Whatever the key and the table, the new key of a rewritten keyword has
    no [#]: a [#] in a path is never kept. *)
Theorem dotted_key_has_no_hash (ops : list string) (k : string) :
  no_hash (dotted_key ops k) = true.
Proof. apply unhash_has_no_hash. Qed.

Lemma dots_from_keeps_start n (s : string) :
  n = 0 → startswith s "_" = false →
  startswith (replace_from n s LOOKUP_SEP ".") "_" = false.
Proof.
  intros -> Hs. destruct s as [|c s]; [done|].
  cbn [startswith] in Hs. destruct (Ascii.eqb "_" c) eqn:Hc; [done|].
  rewrite dots_from_cons, Hc. cbn [andb startswith]. by rewrite Hc.
Qed.

(** After the replacement no separator is left. *)
Lemma dots_from_leaves_no_separator n (s : string) :
  contains (replace_from n s LOOKUP_SEP ".") LOOKUP_SEP = false.
Proof.
  revert n. induction s as [|c s IH]; intros n; [by destruct n|].
  destruct n as [|n]; [|apply IH].
  rewrite dots_from_cons.
  destruct (Ascii.eqb "_" c && startswith s "_") eqn:Hm.
  - cbn [contains]. rewrite startswith_sep. simpl. apply IH.
  - cbn [contains]. rewrite startswith_sep, IH.
    destruct (Ascii.eqb "_" c) eqn:Hc; [|done]. simpl in Hm.
    by rewrite dots_from_keeps_start.
Qed.

Lemma dots_leaves_no_separator (s : string) : contains (dots s) LOOKUP_SEP = false.
Proof. apply dots_from_leaves_no_separator. Qed.

(** The scan either leaves the key as it is, or it found an operator of the
    table after a separator at the end of the key and put the mark there. *)
Lemma mark_operator_cases (ops : list string) (k : string) :
  Forall (λ s, is_word s = true) ops →
  mark_operator ops k = k
  ∨ ∃ p op, op ∈ ops ∧ k = p +:+ LOOKUP_SEP +:+ op
            ∧ mark_operator ops k = p +:+ "#" +:+ op.
Proof.
  induction 1 as [|s ops Hw _ IH]; simpl; [by left|].
  destruct (endswith k s) eqn:Hends.
  - unfold re_sub_end. rewrite (word_end_no_newline _ s) by done.
    destruct (strip_suffix k (LOOKUP_SEP +:+ s)) as [p|] eqn:Hs; [|by left].
    right. exists p, s. split; [apply list_elem_of_here|].
    split; [|done]. by apply strip_suffix_Some.
  - destruct IH as [IH|(p & op & Hin & Hk & Hm)]; [by left|].
    right. exists p, op. split; [by apply list_elem_of_further|done].
Qed.

(** X1.  The new key of a keyword without [#], for a table of words: either
    every separator became a dot and none is left, or the key ended with a
    separator and an operator of the table, and the new key is the part
    before with its separators as dots, one separator, and that operator. *)
Theorem dotted_key_shape (ops : list string) (k : string) :
  Forall (λ s, is_word s = true) ops →
  no_hash k = true →
  (dotted_key ops k = dots k ∧ contains (dotted_key ops k) LOOKUP_SEP = false)
  ∨ ∃ p op, op ∈ ops ∧ k = p +:+ LOOKUP_SEP +:+ op
            ∧ dotted_key ops k = dots p +:+ LOOKUP_SEP +:+ op
            ∧ contains (dots p) LOOKUP_SEP = false
            ∧ contains op LOOKUP_SEP = false.
Proof.
  intros Hw Hk. unfold dotted_key.
  destruct (mark_operator_cases ops k Hw) as [->|(p & op & Hin & -> & ->)].
  - left. fold (dots k). fold (unhash (dots k)).
    rewrite unhash_no_hash by by apply dots_from_no_hash.
    split; [done|apply dots_leaves_no_separator].
  - right. exists p, op.
    assert (is_word op = true) as Hop.
    { rewrite Forall_forall in Hw. by apply Hw. }
    rewrite no_hash_app in Hk. apply andb_true_iff in Hk as [Hp _].
    split; [done|]. split; [done|].
    fold (dots (p +:+ "#" +:+ op)). fold (unhash (dots (p +:+ "#" +:+ op))).
    change (p +:+ "#" +:+ op) with (p +:+ String "#" op).
    rewrite dots_barrier by done.
    rewrite (dots_no_separator op) by by apply is_word_no_separator.
    rewrite unhash_app, unhash_cons. simpl.
    rewrite (unhash_no_hash op) by by apply is_word_no_hash.
    rewrite unhash_no_hash by by apply dots_from_no_hash.
    split; [done|]. split; [apply dots_leaves_no_separator|].
    by apply is_word_no_separator.
Qed.

End KeyShape.

Section LoopAsRenaming.

Context `{DjangoQuery}.
Variable ALL_OPERATORS : list string.





Lemma adhoc_names_none base all (items : list (string * Value)) :
  (∀ k v, (k, v) ∈ items →
          is_adhoc all (first_segment ALL_OPERATORS base k) = false) →
  adhoc_names ALL_OPERATORS base all items = [].
Proof.
  induction items as [|[k v] rest IH]; intros Hnone; [done|]. simpl.
  rewrite (Hnone k v) by apply list_elem_of_here.
  apply IH. intros k' v' Hin. apply (Hnone k' v'). by apply list_elem_of_further.
Qed.


End LoopAsRenaming.

Section Registration.

Context `{DjangoQuery}.
Variable ALL_OPERATORS : list string.

Lemma collect_base_elem (fields : list (string * Field)) f :
  f ∈ collect_base fields ↔
  ∃ field, (f, field) ∈ fields ∧ is_dot_field f field = true.
Proof.
  induction fields as [|[g field] rest IH]; simpl.
  { split; [by intros ?%elem_of_nil|]. by intros (? & ?%elem_of_nil & _). }
  destruct (is_dot_field g field) eqn:Hd.
  - rewrite elem_of_cons, IH. split.
    + intros [->|(field' & Hin & Hd')].
      * exists field. split; [apply list_elem_of_here|done].
      * exists field'. split; [by apply list_elem_of_further|done].
    + intros (field' & [[= -> ->]|Hin]%elem_of_cons & Hd'); [by left|].
      right. by exists field'.
  - rewrite IH. split.
    + intros (field' & Hin & Hd'). exists field'.
      split; [by apply list_elem_of_further|done].
    + intros (field' & [[= -> ->]|Hin]%elem_of_cons & Hd'); [congruence|].
      by exists field'.
Qed.

(** X9.  The names that lines 102 to 107 collect are those of the fields of the
    model whose internal type is one of the four document types and whose
    name has no dot. *)
Theorem base_field_names_are_document_fields (meta : gmap string Field) (f : string) :
  f ∈ base_field_names meta ↔
  ∃ field, meta !! f = Some field
           ∧ PyStr.contains f "." = false
           ∧ internal_type field ∈ MONGO_DOT_FIELDS.
Proof.
  unfold base_field_names. rewrite collect_base_elem. unfold is_dot_field.
  split; intros (field & Hf & Hd); exists field.
  - apply elem_of_map_to_list in Hf. apply andb_true_iff in Hd as [Hdot Hty].
    split; [done|]. split; [by apply negb_true_iff|by apply bool_decide_eq_true in Hty].
  - destruct Hd as [Hdot Hty]. split; [by apply elem_of_map_to_list|].
    apply andb_true_iff. split; [by apply negb_true_iff|by apply bool_decide_eq_true].
Qed.

(** The names that a call registers have a dot and were no field name. *)
Lemma adhoc_names_dotted base all (items : list (string * Value)) name :
  name ∈ adhoc_names ALL_OPERATORS base all items →
  PyStr.contains name "." = true ∧ name ∉ all.
Proof.
  intros (k & v & _ & _ & Had)%adhoc_names_elem.
  unfold is_adhoc in Had. apply andb_true_iff in Had as [Hdot Hnew].
  split; [done|]. by apply negb_true_iff, bool_decide_eq_false in Hnew.
Qed.

(** Registration does not change which names are document-like fields. *)
Lemma base_field_names_registered base all (items : list (string * Value))
    (meta : gmap string Field) f :
  f ∈ base_field_names
        (register_all (adhoc_names ALL_OPERATORS base all items) meta)
  ↔ f ∈ base_field_names meta.
Proof.
  unfold base_field_names. rewrite !collect_base_elem.
  assert (∀ field, is_dot_field f field = true →
            f ∉ adhoc_names ALL_OPERATORS base all items) as Hout.
  { intros field [Hdot _]%andb_true_iff [Hd _]%adhoc_names_dotted.
    apply negb_true_iff in Hdot. congruence. }
  split; intros (field & Hf%elem_of_map_to_list & Hd); exists field.
  - rewrite register_all_notin in Hf by by eapply Hout.
    split; [by apply elem_of_map_to_list|done].
  - split; [|done]. apply elem_of_map_to_list.
    by rewrite register_all_notin by by eapply Hout.
Qed.

Lemma register_all_keeps names (meta : gmap string Field) f :
  is_Some (meta !! f) → is_Some (register_all names meta !! f).
Proof.
  intros Hf. destruct (decide (f ∈ names)) as [Hin|Hout].
  - rewrite register_all_in by done. by eexists.
  - by rewrite register_all_notin.
Qed.

(** X10.  A call registers under names that are field names of the model from
    then on, so that a later call with the same keywords, on any queryset of
    that model, leaves the model classes as they are. *)
Theorem registration_settles (self : nat) (negate : bool) (args : list Value)
    (items : list (string * Value)) (st st1 : Store) (qs : QuerySet) (c1 : nat)
    (self2 : nat) (negate2 : bool) (args2 : list Value) (st2 : Store)
    (qs2 : QuerySet) (c2 : nat) :
  querysets st !! self = Some qs →
  _filter_or_exclude ALL_OPERATORS self negate args items st = (Ok c1, st1) →
  querysets st1 !! self2 = Some qs2 →
  qs_model qs2 = qs_model qs →
  _filter_or_exclude ALL_OPERATORS self2 negate2 args2 items st1 = (Ok c2, st2) →
  models st2 = models st1.
Proof.
  intros Hqs Hrun Hqs2 Hmodel Hrun2.
  destruct (filter_or_exclude_inv _ _ _ _ _ _ _ _ _ Hqs Hrun) as (q & kw & Hq & Hguard & Hkw).
  rewrite (filter_or_exclude_run _ _ negate args _ _ _ _ _ Hqs Hq Hguard Hkw) in Hrun.
  injection Hrun as _ <-.
  destruct (filter_or_exclude_inv _ _ _ _ _ _ _ _ _ Hqs2 Hrun2)
    as (q2 & kw2 & Hq2 & Hguard2 & Hkw2).
  rewrite (filter_or_exclude_run _ _ negate2 args2 _ _ _ _ _ Hqs2 Hq2 Hguard2 Hkw2) in Hrun2.
  injection Hrun2 as _ <-. simpl. rewrite Hmodel, register_in_lookup.
  set (meta := default ∅ (models st !! qs_model qs)).
  set (base := base_field_names meta).
  set (all := get_all_field_names meta).
  set (names := adhoc_names ALL_OPERATORS base all items).
  rewrite adhoc_names_none; [done|].
  intros k v Hin.
  assert (is_rewritten (base_field_names (register_all names meta)) k
          = is_rewritten base k) as Hsame.
  { unfold is_rewritten. f_equal. apply bool_decide_ext.
    apply base_field_names_registered. }
  unfold first_segment, final_key. rewrite Hsame.
  fold (final_key ALL_OPERATORS base k). fold (first_segment ALL_OPERATORS base k).
  set (f := first_segment ALL_OPERATORS base k).
  unfold is_adhoc. destruct (PyStr.contains f ".") eqn:Hdot; [|done]. simpl.
  apply negb_false_iff, bool_decide_eq_true. apply all_field_names_lookup.
  destruct (decide (f ∈ all)) as [Hall|Hnew].
  - apply register_all_keeps. by apply all_field_names_lookup.
  - rewrite register_all_in; [by eexists|].
    apply adhoc_names_elem. exists k, v. split; [done|]. split; [done|].
    unfold is_adhoc. fold f. rewrite Hdot. simpl.
    by apply negb_true_iff, bool_decide_eq_false.
Qed.

End Registration.

Section RawQuerySets.

Context `{MongoCompiler} `{MongoDriver}.

(** X12.  [raw_query(query)] gives a new queryset of Django's own class over a
    new [RawQuery] that holds [query] itself when it is true in a condition,
    and the empty document when it is [None], empty or otherwise false.  No
    object that existed is changed and the driver is not called. *)
Theorem raw_query_builds_raw_queryset (self : Manager) (query : Value) (st : Store) :
  ∃ l lq st',
    raw_query self query st = (Ok l, st')
    ∧ querysets st !! l = None
    ∧ queries st !! lq = None
    ∧ querysets st' !! l
      = Some (mkQuerySet DjangoQuerySet (mgr_model self) lq (mgr_db self) false)
    ∧ queries st' !! lq
      = Some (RawQuery (sql_new (mgr_model self))
                (if truthy query then query else VDict ∅))
    ∧ (∀ l', l' ≠ l → querysets st' !! l' = querysets st !! l')
    ∧ (∀ l', l' ≠ lq → queries st' !! l' = queries st !! l')
    ∧ models st' = models st ∧ colls st' = colls st ∧ trace st' = trace st.
Proof.
  unfold raw_query, get_raw_query_set, RawQuery_init. unfold_m.
  eexists _, _, _. split; [done|]. simpl.
  split; [apply fresh_queryset_unused|]. split; [apply fresh_query_unused|].
  split; [apply lookup_insert_eq|]. split; [apply lookup_insert_eq|].
  split; [by intros l' Hl'; rewrite lookup_insert_ne|].
  split; [by intros l' Hl'; rewrite lookup_insert_ne|]. done.
Qed.

(** X13.  The clone of a queryset over a [RawQuery] is over a [RawQuery] of its
    own with the same [raw_query]; the query of the original stays. *)
Theorem clone_keeps_raw_query (l : nat) (st : Store) (qs : QuerySet)
    (s : SQLQuery) (raw : Value) :
  querysets st !! l = Some qs →
  queries st !! qs_query qs = Some (RawQuery s raw) →
  ∃ c cqs st',
    _clone l st = (Ok c, st')
    ∧ c ≠ l
    ∧ querysets st' !! c = Some cqs
    ∧ qs_class cqs = qs_class qs
    ∧ qs_query cqs ≠ qs_query qs
    ∧ queries st' !! qs_query cqs = Some (RawQuery (sql_clone s) raw)
    ∧ queries st' !! qs_query qs = Some (RawQuery s raw).
Proof.
  intros Hqs Hq. unfold _clone. unfold_m. rewrite Hqs, Hq. simpl.
  pose proof (fresh_query_unused st) as Hfq.
  pose proof (fresh_queryset_unused st) as Hfqs.
  eexists _, _, _. split; [done|]. simpl.
  split; [intros E; congruence|].
  split; [apply lookup_insert_eq|]. simpl. split; [done|].
  split; [intros E; congruence|].
  split; [apply lookup_insert_eq|].
  rewrite lookup_insert_ne; [done|]. intros E; congruence.
Qed.

End RawQuerySets.

Section MapReduceMore.

Context `{MongoCompiler} `{MongoDriver}.
Variable ON_PYPY : bool.

(** [setdefault] binds the key to the value that was there, if any. *)
Lemma setdefault_lookup (key : string) (value : Value) (kwargs : gmap string Value) :
  setdefault key value kwargs !! key = Some (default value (kwargs !! key)).
Proof.
  unfold setdefault. destruct (kwargs !! key) as [w|] eqn:Hk; [by rewrite Hk|].
  apply lookup_insert_eq.
Qed.

Lemma setdefault_lookup_ne (key key' : string) (value : Value)
    (kwargs : gmap string Value) :
  key ≠ key' → setdefault key value kwargs !! key' = kwargs !! key'.
Proof.
  intros Hne. unfold setdefault. destruct (kwargs !! key); [done|].
  by rewrite lookup_insert_ne.
Qed.

(** [map_reduce] up to the call of the driver, whatever comes of it. *)
Lemma map_reduce_calls_driver (self : nat) (args : list Value)
    (kwargs : gmap string Value) (st : Store) qs q :
  querysets st !! self = Some qs →
  queries st !! qs_query qs = Some q →
  let coll := collection_of (qs_model qs) in
  let kw := setdefault "query" (query_filter q) (delete "drop_collection" kwargs) in
  ∃ rest,
    trace (map_reduce ON_PYPY self args kwargs st).2
    = trace st ++ CallMapReduce coll args kw :: rest.
Proof.
  intros Hqs Hq coll kw.
  destruct (drv_map_reduce coll args kw (colls st)) as [[rc|e] c1] eqn:Hdrv.
  - rewrite (map_reduce_run _ _ _ _ _ _ _ _ _ Hqs Hq Hdrv). fold coll kw.
    destruct (truthy _ && ON_PYPY); simpl.
    + exists [CallFind rc; CallDrop rc]. by rewrite <- !app_assoc.
    + by exists [].
  - unfold map_reduce.
    unfold bind at 1. unfold get_queryset at 1. rewrite Hqs.
    unfold bind at 1. rewrite (get_query_run _ _ _ _ Hqs Hq). cbn [mongo_query collection].
    fold coll kw. unfold bind at 1. unfold driver_map_reduce. rewrite Hdrv. simpl.
    by exists [].
Qed.

(** The keyword arguments of that call. *)
Lemma map_reduce_driver_keywords_aux (self : nat) (args : list Value)
    (kwargs : gmap string Value) (st : Store) (qs : QuerySet) (q : Query) :
  querysets st !! self = Some qs →
  queries st !! qs_query qs = Some q →
  ∃ kw rest,
    trace (map_reduce ON_PYPY self args kwargs st).2
    = trace st ++ CallMapReduce (collection_of (qs_model qs)) args kw :: rest
    ∧ kw !! "drop_collection" = None
    ∧ kw !! "query" = Some (default (query_filter q) (kwargs !! "query")).
Proof.
  intros Hqs Hq.
  destruct (map_reduce_calls_driver self args kwargs st qs q Hqs Hq) as [rest Hrest].
  eexists _, rest. split; [exact Hrest|]. split.
  - rewrite setdefault_lookup_ne by done. apply lookup_delete_eq.
  - rewrite setdefault_lookup. by rewrite lookup_delete_ne.
Qed.

(** X15.  The first call that [map_reduce] makes is the driver's [map_reduce] on
    the collection of the model, with the positional arguments as given and
    keyword arguments in which [drop_collection] does not occur, [query] is
    the one the caller passed, or else the filter of the queryset, and every
    other keyword is as the caller passed it. *)
Theorem map_reduce_driver_keywords (self : nat) (args : list Value)
    (kwargs : gmap string Value) (st : Store) (qs : QuerySet) (q : Query) :
  querysets st !! self = Some qs →
  queries st !! qs_query qs = Some q →
  ∃ kw rest,
    trace (map_reduce ON_PYPY self args kwargs st).2
    = trace st ++ CallMapReduce (collection_of (qs_model qs)) args kw :: rest
    ∧ kw !! "drop_collection" = None
    ∧ kw !! "query" = Some (default (query_filter q) (kwargs !! "query"))
    ∧ ∀ key, key ≠ "drop_collection" → key ≠ "query" → kw !! key = kwargs !! key.
Proof.
  intros Hqs Hq.
  destruct (map_reduce_calls_driver self args kwargs st qs q Hqs Hq) as [rest Hrest].
  eexists _, rest. split; [exact Hrest|].
  split; [|split].
  - rewrite setdefault_lookup_ne by done. apply lookup_delete_eq.
  - rewrite setdefault_lookup. by rewrite lookup_delete_ne.
  - intros key Hd Hquery. rewrite setdefault_lookup_ne by done.
    by rewrite lookup_delete_ne.
Qed.

(** X16.  An error of the driver's [map_reduce] is the error of the call; the
    job was the only call made, nothing is found or dropped. *)
Theorem map_reduce_driver_error (self : nat) (args : list Value)
    (kwargs : gmap string Value) (st : Store) (qs : QuerySet) (q : Query)
    (e : Exn) (c1 : gmap string (list Entity)) :
  querysets st !! self = Some qs →
  queries st !! qs_query qs = Some q →
  let coll := collection_of (qs_model qs) in
  let kw := setdefault "query" (query_filter q) (delete "drop_collection" kwargs) in
  drv_map_reduce coll args kw (colls st) = (Raise e, c1) →
  ∃ st1,
    map_reduce ON_PYPY self args kwargs st = (Raise e, st1)
    ∧ trace st1 = trace st ++ [CallMapReduce coll args kw]
    ∧ colls st1 = c1.
Proof.
  intros Hqs Hq coll kw Hdrv. unfold map_reduce.
  unfold bind at 1. unfold get_queryset at 1. rewrite Hqs.
  unfold bind at 1. rewrite (get_query_run _ _ _ _ Hqs Hq). cbn [mongo_query collection].
  fold coll kw. unfold bind at 1. unfold driver_map_reduce. rewrite Hdrv.
  by eexists.
Qed.

(** The iterator over a list has no effect, whatever the fuel. *)
Lemma consume_list_store (items : list MapReduceResult) (st : Store) fuel :
  (consume fuel (ListIter items) st).2 = st.
Proof.
  revert items. induction fuel as [|fuel IH]; intros items; [done|].
  cbn [consume iter_next]. destruct items as [|r rest]; [done|].
  unfold bind at 1. unfold ret at 1. cbn [fst snd]. unfold bind.
  specialize (IH rest). by destruct (consume fuel (ListIter rest) st) as [[?|?] ?].
Qed.

End MapReduceMore.

Section MapReduceRuntimes.

Context `{MongoCompiler} `{MongoDriver}.

(** X17.  On PyPy with a true [drop_collection], a call that returns has found
    the entities and dropped the result collection already; consuming the
    sequence, however far, calls the driver no more and changes nothing. *)
Theorem map_reduce_eager_on_pypy (self : nat) (args : list Value)
    (kwargs : gmap string Value) (st st1 : Store) (qs : QuerySet) (q : Query)
    (it : MapReduceIter) :
  querysets st !! self = Some qs →
  queries st !! qs_query qs = Some q →
  truthy (default (VBool false) (kwargs !! "drop_collection")) = true →
  map_reduce true self args kwargs st = (Ok it, st1) →
  let coll := collection_of (qs_model qs) in
  let kw := setdefault "query" (query_filter q) (delete "drop_collection" kwargs) in
  ∃ rc c1 rs,
    drv_map_reduce coll args kw (colls st) = (Ok rc, c1)
    ∧ it = ListIter rs
    ∧ from_entities (qs_model qs) (default [] (c1 !! rc)) = Ok rs
    ∧ colls st1 !! rc = None
    ∧ trace st1 = trace st ++ [CallMapReduce coll args kw; CallFind rc; CallDrop rc]
    ∧ ∀ fuel, (consume fuel it st1).2 = st1.
Proof.
  intros Hqs Hq Hd Hrun coll kw.
  destruct (map_reduce_inv _ _ _ _ _ _ _ _ _ Hqs Hq Hrun) as (rc & c1 & Hdrv).
  fold coll kw in Hdrv.
  rewrite (map_reduce_run _ _ _ _ _ _ _ _ _ Hqs Hq Hdrv) in Hrun. fold coll kw in Hrun.
  rewrite Hd in Hrun. simpl in Hrun.
  destruct (from_entities (qs_model qs) (default [] (c1 !! rc))) as [rs|e] eqn:Hents;
    [|done].
  injection Hrun as <- <-. exists rc, c1, rs.
  split; [done|]. split; [done|]. split; [done|].
  split; [apply lookup_delete_eq|]. split; [simpl; by rewrite <- !app_assoc|].
  intros fuel. apply consume_list_store.
Qed.

(** The generator is what the call returns in every other case. *)
Lemma map_reduce_generator (ON_PYPY : bool) (self : nat) (args : list Value)
    (kwargs : gmap string Value) (st st1 : Store) qs q it :
  querysets st !! self = Some qs →
  queries st !! qs_query qs = Some q →
  truthy (default (VBool false) (kwargs !! "drop_collection")) && ON_PYPY = false →
  map_reduce ON_PYPY self args kwargs st = (Ok it, st1) →
  let coll := collection_of (qs_model qs) in
  let kw := setdefault "query" (query_filter q) (delete "drop_collection" kwargs) in
  ∃ rc c1,
    drv_map_reduce coll args kw (colls st) = (Ok rc, c1)
    ∧ it = GenCreated (qs_model qs) rc (default (VBool false) (kwargs !! "drop_collection"))
    ∧ st1 = log (CallMapReduce coll args kw) (set_colls (λ _, c1) st).
Proof.
  intros Hqs Hq Hd Hrun coll kw.
  destruct (map_reduce_inv _ _ _ _ _ _ _ _ _ Hqs Hq Hrun) as (rc & c1 & Hdrv).
  fold coll kw in Hdrv.
  rewrite (map_reduce_run _ _ _ _ _ _ _ _ _ Hqs Hq Hdrv) in Hrun. fold coll kw in Hrun.
  rewrite Hd in Hrun. injection Hrun as <- <-. by exists rc, c1.
Qed.

(** X18.  On CPython, or with a false [drop_collection], the call returns after
    the job alone: nothing has been found or dropped.  A sequence that is
    closed without having been advanced runs none of the generator, so the
    result collection stays, also with a true [drop_collection]. *)
Theorem map_reduce_unstarted_never_drops (ON_PYPY : bool) (self : nat)
    (args : list Value) (kwargs : gmap string Value) (st st1 : Store)
    (qs : QuerySet) (q : Query) (it : MapReduceIter) :
  querysets st !! self = Some qs →
  queries st !! qs_query qs = Some q →
  truthy (default (VBool false) (kwargs !! "drop_collection")) && ON_PYPY = false →
  map_reduce ON_PYPY self args kwargs st = (Ok it, st1) →
  let coll := collection_of (qs_model qs) in
  let kw := setdefault "query" (query_filter q) (delete "drop_collection" kwargs) in
  ∃ rc c1,
    drv_map_reduce coll args kw (colls st) = (Ok rc, c1)
    ∧ trace st1 = trace st ++ [CallMapReduce coll args kw]
    ∧ colls st1 = c1
    ∧ iter_close it st1 = (Ok GenFinished, st1).
Proof.
  intros Hqs Hq Hd Hrun coll kw.
  destruct (map_reduce_generator _ _ _ _ _ _ _ _ _ Hqs Hq Hd Hrun)
    as (rc & c1 & Hdrv & -> & ->).
  by exists rc, c1.
Qed.

(** X19.  A sequence that is closed after it has yielded at least one entry
    drops the result collection when [drop_collection] is true, and calls
    the driver no more when it is false. *)
Theorem map_reduce_close_after_yield (ON_PYPY : bool) (self : nat)
    (args : list Value) (kwargs : gmap string Value) (st st1 st2 : Store)
    (qs : QuerySet) (q : Query) (it it' : MapReduceIter) (r : MapReduceResult) :
  querysets st !! self = Some qs →
  queries st !! qs_query qs = Some q →
  truthy (default (VBool false) (kwargs !! "drop_collection")) && ON_PYPY = false →
  map_reduce ON_PYPY self args kwargs st = (Ok it, st1) →
  iter_next it st1 = (Ok (Some r, it'), st2) →
  let coll := collection_of (qs_model qs) in
  let kw := setdefault "query" (query_filter q) (delete "drop_collection" kwargs) in
  ∃ rc c1 st3,
    drv_map_reduce coll args kw (colls st) = (Ok rc, c1)
    ∧ iter_close it' st2 = (Ok GenFinished, st3)
    ∧ if truthy (default (VBool false) (kwargs !! "drop_collection"))
      then colls st3 = delete rc c1
           ∧ trace st3
             = trace st ++ [CallMapReduce coll args kw; CallFind rc; CallDrop rc]
      else colls st3 = c1
           ∧ trace st3 = trace st ++ [CallMapReduce coll args kw; CallFind rc].
Proof.
  intros Hqs Hq Hd Hrun Hnext coll kw.
  destruct (map_reduce_generator _ _ _ _ _ _ _ _ _ Hqs Hq Hd Hrun)
    as (rc & c1 & Hdrv & -> & ->).
  exists rc, c1.
  set (d := default (VBool false) (kwargs !! "drop_collection")) in *.
  change (gen_resume (qs_model qs) rc d (default [] (c1 !! rc))
            (log (CallFind rc)
               (log (CallMapReduce coll args kw) (set_colls (λ _, c1) st)))
          = (Ok (Some r, it'), st2)) in Hnext.
  destruct (default [] (c1 !! rc)) as [|e rest]; cbn [gen_resume] in Hnext.
  { unfold bind in Hnext. by rewrite drop_if_ok in Hnext. }
  destruct (from_entity (qs_model qs) e) as [r0|ex].
  - injection Hnext as <- <- <-. rewrite iter_close_suspended.
    eexists. split; [done|]. split; [done|].
    destruct (truthy d); simpl; split; try done; by rewrite <- !app_assoc.
  - unfold bind in Hnext. by rewrite drop_if_ok in Hnext.
Qed.

(** X20.  With a true [drop_collection], an entity of the result without [_id]
    or [value] makes the [KeyError] surface, from the call itself on PyPy and
    from the consumption of the sequence on CPython, and the result
    collection is dropped all the same. *)
Theorem map_reduce_drops_on_key_error (ON_PYPY : bool) (self : nat)
    (args : list Value) (kwargs : gmap string Value) (st : Store)
    (qs : QuerySet) (q : Query) (rc : string) (c1 : gmap string (list Entity))
    (e : Exn) :
  querysets st !! self = Some qs →
  queries st !! qs_query qs = Some q →
  truthy (default (VBool false) (kwargs !! "drop_collection")) = true →
  let coll := collection_of (qs_model qs) in
  let kw := setdefault "query" (query_filter q) (delete "drop_collection" kwargs) in
  drv_map_reduce coll args kw (colls st) = (Ok rc, c1) →
  from_entities (qs_model qs) (default [] (c1 !! rc)) = Raise e →
  let out := map_reduce ON_PYPY self args kwargs st in
  if ON_PYPY
  then out.1 = Raise e ∧ colls out.2 = delete rc c1
  else ∃ it, out.1 = Ok it
             ∧ ∀ fuel, length (default [] (c1 !! rc)) < fuel →
                 (consume fuel it out.2).1 = Raise e
                 ∧ colls (consume fuel it out.2).2 = delete rc c1.
Proof.
  intros Hqs Hq Hd coll kw Hdrv Hents out. subst out.
  rewrite (map_reduce_run _ _ _ _ _ _ _ _ _ Hqs Hq Hdrv). fold coll kw.
  rewrite Hd. destruct ON_PYPY; simpl.
  - by rewrite Hents.
  - eexists. split; [done|]. intros fuel Hfuel.
    rewrite consume_created by done. simpl. by rewrite Hents, Hd.
Qed.

End MapReduceRuntimes.

Section Failures.

Context `{MongoCompiler} `{MongoDriver}.
Variable ALL_OPERATORS : list string.

(** The conversion stops at the first entity that lacks a key, with the
    [KeyError] of [_id] when that is absent and of [value] otherwise. *)
Lemma from_entities_first_error model (good rest : list Entity) (bad : Entity) :
  Forall (λ e : Entity, is_Some (e !! "_id") ∧ is_Some (e !! "value")) good →
  from_entities model (good ++ bad :: rest)
  = match bad !! "_id", bad !! "value" with
    | None, _ => Raise (KeyError "_id")
    | Some _, None => Raise (KeyError "value")
    | Some k, Some v =>
        match from_entities model rest with
        | Ok rs =>
            match from_entities model good with
            | Ok gs => Ok (gs ++ mkMapReduceResult model k v :: rs)
            | Raise e => Raise e
            end
        | Raise e => Raise e
        end
    end.
Proof.
  induction 1 as [|g good [[k Hk] [v Hv]] Hgood IH]; simpl.
  - unfold from_entity. destruct (bad !! "_id") as [k|]; [|done].
    destruct (bad !! "value") as [v|]; [|done].
    by destruct (from_entities model rest).
  - rewrite (from_entity_lookup _ _ _ _ Hk Hv), IH.
    destruct (bad !! "_id") as [k'|]; [|done].
    destruct (bad !! "value") as [v'|]; [|done].
    destruct (from_entities model rest); [|done].
    by destruct (from_entities model good).
Qed.

(** X21.  [inline_map_reduce] fails with the error of the driver when the driver
    fails, and with the [KeyError] of the first reported entity that lacks
    [_id] (or else [value]) when there is one: no list of the entries before
    it is returned.  The driver was called once in either case. *)
Theorem inline_map_reduce_failures (self : nat) (args : list Value)
    (kwargs : gmap string Value) (st : Store) (qs : QuerySet) (q : Query) :
  querysets st !! self = Some qs →
  queries st !! qs_query qs = Some q →
  let coll := collection_of (qs_model qs) in
  let kw := setdefault "query" (query_filter q) kwargs in
  let out := inline_map_reduce self args kwargs st in
  trace out.2 = trace st ++ [CallInlineMapReduce coll args kw]
  ∧ (∀ e, drv_inline_map_reduce coll args kw (colls st) = Raise e → out.1 = Raise e)
  ∧ (∀ good bad rest,
       drv_inline_map_reduce coll args kw (colls st) = Ok (good ++ bad :: rest) →
       Forall (λ e : Entity, is_Some (e !! "_id") ∧ is_Some (e !! "value")) good →
       (bad !! "_id" = None → out.1 = Raise (KeyError "_id"))
       ∧ (is_Some (bad !! "_id") → bad !! "value" = None →
          out.1 = Raise (KeyError "value"))).
Proof.
  intros Hqs Hq coll kw out. subst out.
  rewrite (inline_map_reduce_run _ _ _ _ _ _ Hqs Hq). fold coll kw. simpl.
  split; [done|]. split.
  - by intros e ->.
  - intros good bad rest -> Hgood.
    rewrite (from_entities_first_error _ _ _ _ Hgood). split.
    + by intros ->.
    + intros [k ->] ->. done.
Qed.

(** X22.  The keyword arguments that [inline_map_reduce] hands to the driver are
    those of the caller, with [query] added as the filter of the queryset
    only when the caller passed none. *)
Theorem inline_map_reduce_driver_keywords (self : nat) (args : list Value)
    (kwargs : gmap string Value) (st : Store) (qs : QuerySet) (q : Query) :
  querysets st !! self = Some qs →
  queries st !! qs_query qs = Some q →
  ∃ kw,
    trace (inline_map_reduce self args kwargs st).2
    = trace st ++ [CallInlineMapReduce (collection_of (qs_model qs)) args kw]
    ∧ kw !! "query" = Some (default (query_filter q) (kwargs !! "query"))
    ∧ ∀ key, key ≠ "query" → kw !! key = kwargs !! key.
Proof.
  intros Hqs Hq. rewrite (inline_map_reduce_run _ _ _ _ _ _ Hqs Hq).
  eexists. split; [done|]. split.
  - apply setdefault_lookup.
  - intros key Hkey. by apply setdefault_lookup_ne.
Qed.

(** X14.  An error of the driver's update is the error of [raw_update]; the
    update was the only call made, and the database is as the driver left
    it. *)
Theorem raw_update_driver_error (self : Manager) (spec_or_q update_dict : Value)
    (kwargs : gmap string Value) (st : Store) (e : Exn)
    (c : gmap string (list Entity)) :
  (is_dict spec_or_q = false → can_filter (sql_new (mgr_model self)) = true) →
  let coll := collection_of (mgr_model self) in
  let criteria := update_criteria (mgr_model self) spec_or_q in
  drv_update coll criteria update_dict kwargs (colls st) = (Raise e, c) →
  let out := raw_update ALL_OPERATORS self spec_or_q update_dict kwargs st in
  out.1 = Raise e
  ∧ trace out.2 = trace st ++ [CallUpdate coll criteria update_dict kwargs]
  ∧ colls out.2 = c.
Proof.
  intros Hcf coll criteria Hdrv out. subst out.
  destruct (raw_update_run ALL_OPERATORS self spec_or_q update_dict kwargs st Hcf)
    as (l & qs & st' & Hrun & Ht & Hc & _).
  rewrite Hrun. fold coll criteria in Hc, Ht |- *. rewrite Hdrv in Hc |- *. done.
Qed.

End Failures.

Section Exclude.

Context `{DjangoQuery}.
Variable ALL_OPERATORS : list string.

(** X11.  [exclude] differs from [filter] only in the predicate added: from the
    same store and with the same arguments, both return the same new
    queryset, rewrite the keywords alike and register the same fields, and
    the clone's query gets the negation of what [filter] adds. *)
Theorem exclude_negates_filter (self : nat) (args : list Value)
    (items : list (string * Value)) (st st' : Store) (qs : QuerySet) (clone : nat) :
  querysets st !! self = Some qs →
  _filter_or_exclude ALL_OPERATORS self false args items st = (Ok clone, st') →
  ∃ st'' q kw cqs,
    _filter_or_exclude ALL_OPERATORS self true args items st = (Ok clone, st'')
    ∧ queries st !! qs_query qs = Some q
    ∧ querysets st' !! clone = Some cqs
    ∧ querysets st'' = querysets st'
    ∧ models st'' = models st'
    ∧ queries st' !! qs_query cqs = Some (query_add_q (query_clone q) (Q args kw))
    ∧ queries st'' !! qs_query cqs
      = Some (query_add_q (query_clone q) (QNot (Q args kw)))
    ∧ ∀ l, l ≠ qs_query cqs → queries st'' !! l = queries st' !! l.
Proof.
  intros Hqs Hrun.
  destruct (filter_or_exclude_inv _ _ _ _ _ _ _ _ _ Hqs Hrun) as (q & kw & Hq & Hguard & Hkw).
  rewrite (filter_or_exclude_run _ _ false args _ _ _ _ _ Hqs Hq Hguard Hkw) in Hrun.
  injection Hrun as <- <-.
  eexists _, q, kw, _. split.
  { by apply (filter_or_exclude_run _ _ true args _ _ _ _ _ Hqs Hq Hguard Hkw). }
  simpl. split; [done|]. split; [apply lookup_insert_eq|]. simpl.
  split; [done|]. split; [done|].
  split; [apply lookup_insert_eq|]. split; [apply lookup_insert_eq|].
  intros l Hl. by rewrite !lookup_insert_ne.
Qed.

End Exclude.

Section ManagerMethods.

Context `{MongoCompiler} `{MongoDriver}.
Variable ON_PYPY : bool.

(** X23.  The Map/Reduce methods of the manager run on a queryset made for the
    call: they never miss their queryset, the job is the first call of the
    driver, and unless the caller passes a [query] the job gets the filter of
    a query on which nothing was filtered. *)
Theorem manager_runs_on_fresh_queryset (self : Manager) (args : list Value)
    (kwargs : gmap string Value) (st : Store) :
  let coll := collection_of (mgr_model self) in
  let filter := orm_filter (sql_new (mgr_model self)) in
  (∃ kw,
     trace (manager_inline_map_reduce self args kwargs st).2
     = trace st ++ [CallInlineMapReduce coll args kw]
     ∧ kw !! "query" = Some (default filter (kwargs !! "query")))
  ∧ (∃ kw rest,
       trace (manager_map_reduce ON_PYPY self args kwargs st).2
       = trace st ++ CallMapReduce coll args kw :: rest
       ∧ kw !! "query" = Some (default filter (kwargs !! "query"))
       ∧ kw !! "drop_collection" = None).
Proof.
  intros coll filter.
  set (lq := fresh (dom (queries st))).
  set (st0 := set_queries (insert lq (PlainQuery (sql_new (mgr_model self)))) st).
  set (l := fresh (dom (querysets st0))).
  set (qs := mkQuerySet MongoDBQuerySet (mgr_model self) lq (mgr_db self) false).
  set (st1 := set_querysets (insert l qs) st0).
  assert (querysets st1 !! l = Some qs) as Hqs by apply lookup_insert_eq.
  assert (queries st1 !! qs_query qs = Some (PlainQuery (sql_new (mgr_model self))))
    as Hq by apply lookup_insert_eq.
  split.
  - change (manager_inline_map_reduce self args kwargs st)
      with (inline_map_reduce l args kwargs st1).
    rewrite (inline_map_reduce_run _ _ _ _ _ _ Hqs Hq).
    eexists. split; [done|]. apply setdefault_lookup.
  - change (manager_map_reduce ON_PYPY self args kwargs st)
      with (map_reduce ON_PYPY l args kwargs st1).
    destruct (map_reduce_driver_keywords_aux ON_PYPY l args kwargs st1 qs _ Hqs Hq)
      as (kw & rest & Ht & Hd & Hquery).
    exists kw, rest. done.
Qed.

End ManagerMethods.

(** * The properties on the model [Order] *)

Section OnOrder.

Import Sample.

Let AB : Value := VList [VStr "A"; VStr "B"].

(** The scenario of the spec: [filter(items__sku__in=['A','B'])] on [Order]
    adds the predicate with the keyword [items.sku__in] and the same value
    to the query of the clone. *)
Example order_items_sku_in :
  let call := _filter_or_exclude operators 0 false [] [("items__sku__in", AB)] store in
  call.1 = Ok 2
  ∧ queries call.2 !! 2
    = Some (PlainQuery
              (mkLimitQuery "Order" 0 None [Q [] (<["items.sku__in" := AB]> ∅)])).
Proof. split; vm_compute; reflexivity. Qed.

(** C1, where the code departs from it.  The keyword [items__a#b__in] has
    the field [items], the path [a#b] and the operator [in]; the key that
    reaches the query is [items.a__b__in], not [items.a#b__in]: the [#] of
    the path is taken for the mark that the code puts before the operator. *)
Theorem operator_key_with_hash :
  let call := _filter_or_exclude operators 0 false [] [("items__a#b__in", AB)] store in
  call.1 = Ok 2
  ∧ queries call.2 !! 2
    = Some (PlainQuery
              (mkLimitQuery "Order" 0 None [Q [] (<["items.a__b__in" := AB]> ∅)])).
Proof. split; vm_compute; reflexivity. Qed.

(** The other way in which an operator is lost: the scan stops at the first
    operator that ends the key, with or without a separator before it.  When
    [exact] is met before [iexact], the key [items__sku__iexact] keeps no
    operator; in the other order it does. *)
Lemma operator_shadowed_by_its_suffix :
  dotted_key ["exact"; "iexact"] "items__sku__iexact" = "items.sku.iexact"
  ∧ dotted_key ["iexact"; "exact"] "items__sku__iexact" = "items.sku__iexact".
Proof. split; vm_compute; reflexivity. Qed.

(** C2, where the code departs from it.  No operator ends the keyword
    [items__a#b]; with every separator replaced by a dot it would be
    [items.a#b], and the key that reaches the query is [items.a__b]. *)
Theorem literal_key_with_hash :
  let call := _filter_or_exclude operators 0 false [] [("items__a#b", VInt 1)] store in
  forallb (λ s, negb (PyStr.endswith "items__a#b" s)) operators = true
  ∧ PyStr.replace "items__a#b" LOOKUP_SEP "." = "items.a#b"
  ∧ call.1 = Ok 2
  ∧ queries call.2 !! 2
    = Some (PlainQuery
              (mkLimitQuery "Order" 0 None [Q [] (<["items.a__b" := VInt 1]> ∅)])).
Proof. repeat split; vm_compute; reflexivity. Qed.

Lemma filter_after_slice_fails_witness :
  _filter_or_exclude operators 1 false [] [("items__sku", VInt 1)] store
  = (Raise (AssertionError "Cannot filter a query once a slice has been taken."),
     store).
Proof.
  apply (filter_after_slice_fails operators 1 false [] [("items__sku", VInt 1)] store
           sliced_queryset sliced_query);
    reflexivity.
Defined.

(** C3 as stated fails: the queryset [1] has its slice taken, and a call
    without any argument returns a clone. *)
Lemma filter_after_slice_without_arguments :
  (∃ qs q, querysets store !! 1 = Some qs
           ∧ queries store !! qs_query qs = Some q
           ∧ can_filter (query_sql q) = false)
  ∧ (_filter_or_exclude operators 1 false [] [] store).1 = Ok 2.
Proof.
  split.
  - eexists _, _. split; [reflexivity|]. split; reflexivity.
  - vm_compute. reflexivity.
Qed.

Lemma filter_returns_clone_witness :
  let call := _filter_or_exclude operators 0 true [] [("items__sku__in", AB)] store in
  ∃ q kw cqs,
    queries store !! 0 = Some q
    ∧ kwargs_after operators
        (base_field_names (default ∅ (models store !! "Order")))
        [("items__sku__in", AB)] (list_to_map [("items__sku__in", AB)]) = Ok kw
    ∧ 2 ≠ 0
    ∧ querysets store !! 2 = None
    ∧ querysets call.2 !! 2 = Some cqs
    ∧ qs_class cqs = MongoDBQuerySet ∧ qs_model cqs = "Order"
    ∧ qs_db cqs = None
    ∧ qs_query cqs ≠ 0
    ∧ queries store !! qs_query cqs = None
    ∧ queries call.2 !! qs_query cqs
      = Some (query_add_q (query_clone q) (added_node true [] kw))
    ∧ querysets call.2 !! 0 = Some order_queryset
    ∧ queries call.2 !! 0 = Some q
    ∧ (∀ l, l ≠ 2 → querysets call.2 !! l = querysets store !! l)
    ∧ (∀ l, l ≠ qs_query cqs → queries call.2 !! l = queries store !! l).
Proof.
  apply (filter_returns_clone operators 0 true [] [("items__sku__in", AB)] store
           (_filter_or_exclude operators 0 true [] [("items__sku__in", AB)] store).2
           order_queryset 2).
  - reflexivity.
  - vm_compute. reflexivity.
Defined.

Lemma adhoc_field_registration_witness :
  let items := [("items__sku", VInt 1); ("meta.tag", VInt 2); ("id", VInt 3)] in
  let call := _filter_or_exclude operators 0 false [] items store in
  let meta := default ∅ (models store !! "Order") in
  let meta' := default ∅ (models call.2 !! "Order") in
  let base := base_field_names meta in
  let all := get_all_field_names meta in
  (∀ k v, (k, v) ∈ items →
          is_adhoc all (first_segment operators base k) = true →
          meta' !! first_segment operators base k = Some AbstractIterableField)
  ∧ (∀ name,
       (∀ k v, (k, v) ∈ items → first_segment operators base k = name →
               is_adhoc all name = false) →
       meta' !! name = meta !! name)
  ∧ (∀ k v, (k, v) ∈ items →
            PyStr.contains (PyStr.split_head k LOOKUP_SEP) "." = true →
            meta !! PyStr.split_head k LOOKUP_SEP = None →
            meta' !! PyStr.split_head k LOOKUP_SEP = Some AbstractIterableField)
  ∧ (∀ m, m ≠ "Order" → models call.2 !! m = models store !! m).
Proof.
  apply (adhoc_field_registration operators 0 false []
           [("items__sku", VInt 1); ("meta.tag", VInt 2); ("id", VInt 3)] store
           (_filter_or_exclude operators 0 false []
              [("items__sku", VInt 1); ("meta.tag", VInt 2); ("id", VInt 3)] store).2
           order_queryset 2).
  - reflexivity.
  - vm_compute. reflexivity.
Defined.

(** C6 as stated fails in its second half: the first segment of the keyword
    [items__sku] is [items], without a dot and a field of [Order], and the
    call registers a field under [items.sku]. *)
Lemma registration_for_undotted_keyword :
  let call := _filter_or_exclude operators 0 false [] [("items__sku", VInt 1)] store in
  PyStr.split_head "items__sku" LOOKUP_SEP = "items"
  ∧ PyStr.contains "items" "." = false
  ∧ is_Some (order_meta !! "items")
  ∧ call.1 = Ok 2
  ∧ default ∅ (models store !! "Order") !! "items.sku" = None
  ∧ default ∅ (models call.2 !! "Order") !! "items.sku" = Some AbstractIterableField.
Proof.
  split; [reflexivity|]. split; [reflexivity|].
  split; [by eexists|]. repeat split; vm_compute; reflexivity.
Qed.

Let pending : Value := VDict (<["status" := VStr "pending"]> ∅).
Let shipped : Value :=
  VDict (<["$set" := VDict (<["status" := VStr "shipped"]> ∅)]> ∅).

(** The scenario of the spec:
    [raw_update({'status': 'pending'}, {'$set': {'status': 'shipped'}})]. *)
Lemma raw_update_one_driver_call_witness :
  let st' := (raw_update operators manager pending shipped ∅ store).2 in
  trace st' = trace store ++ [CallUpdate "Order" pending shipped ∅]
  ∧ ∃ l qs,
      querysets store !! l = None
      ∧ querysets st' !! l = Some qs
      ∧ qs_for_write qs = true
      ∧ queries st' !! qs_query qs = Some (RawQuery (sql_new "Order") pending).
Proof.
  exact (raw_update_one_driver_call operators manager pending shipped ∅ store
           (λ _, eq_refl)).
Defined.

Lemma raw_update_returns_none_witness :
  VNone = VNone
  ∧ ∃ ack, (drv_update "Order" pending shipped ∅ (colls store)).1 = Ok ack.
Proof.
  assert ((raw_update operators manager pending shipped ∅ store).1 = Ok VNone) as Hret
    by (vm_compute; reflexivity).
  exact (raw_update_returns_none operators manager pending shipped ∅ store VNone Hret).
Defined.

Let job : list Value := [VStr "map"; VStr "reduce"].

Lemma inline_map_reduce_in_driver_order_witness :
  let kw : gmap string Value := <["query" := VList []]> ∅ in
  let out := inline_map_reduce 0 job ∅ store in
  trace out.2 = trace store ++ [CallInlineMapReduce "Order" job kw]
  ∧ colls out.2 = colls store
  ∧ kw !! "drop_collection" = (∅ : gmap string Value) !! "drop_collection"
  ∧ (∀ rs, out.1 = Ok rs →
       ∃ ents, drv_inline_map_reduce "Order" job kw (colls store) = Ok ents
               ∧ Forall2 (λ e r, from_entity "Order" e = Ok r) ents rs)
  ∧ (∀ ents, drv_inline_map_reduce "Order" job kw (colls store) = Ok ents →
       Forall (λ e : Entity, is_Some (e !! "_id") ∧ is_Some (e !! "value")) ents →
       ∃ rs, out.1 = Ok rs).
Proof.
  exact (inline_map_reduce_in_driver_order 0 job ∅ store order_queryset order_query
           eq_refl eq_refl).
Defined.


End OnOrder.

(** * Further properties on the model [Order] *)

(** The cases of a membership in a list that is written out. *)
Ltac pick H :=
  repeat (apply elem_of_cons in H as [H|H]); [..|by apply elem_of_nil in H].

Section MoreOnOrder.

Import Sample.

Let AB : Value := VList [VStr "A"; VStr "B"].
Let pending : Value := VDict (<["status" := VStr "pending"]> ∅).
Let shipped : Value :=
  VDict (<["$set" := VDict (<["status" := VStr "shipped"]> ∅)]> ∅).
Let job : list Value := [VStr "map"; VStr "reduce"].
Let order_base : list string :=
  base_field_names (default ∅ (models store !! "Order")).

Lemma operators_are_words : Forall (λ s, is_word s = true) operators.
Proof. repeat constructor. Qed.

Lemma dotted_key_shape_witness :
  (dotted_key operators "items__sku__in" = dots "items__sku__in"
   ∧ PyStr.contains (dotted_key operators "items__sku__in") LOOKUP_SEP = false)
  ∨ ∃ p op, op ∈ operators ∧ "items__sku__in" = p +:+ LOOKUP_SEP +:+ op
            ∧ dotted_key operators "items__sku__in" = dots p +:+ LOOKUP_SEP +:+ op
            ∧ PyStr.contains (dots p) LOOKUP_SEP = false
            ∧ PyStr.contains op LOOKUP_SEP = false.
Proof.
  exact (dotted_key_shape operators "items__sku__in" operators_are_words eq_refl).
Defined.

Lemma final_key_operator_witness :
  final_key operators ["items"] ("items" +:+ LOOKUP_SEP +:+ "a__b" +:+ LOOKUP_SEP +:+ "gte")
  = "items" +:+ "." +:+ dots "a__b" +:+ LOOKUP_SEP +:+ "gte".
Proof.
  apply (final_key_operator operators ["items"] "items" "a__b" "gte");
    [apply list_elem_of_here | reflexivity..].
Defined.

Lemma final_key_literal_witness :
  final_key operators ["items"] ("items" +:+ LOOKUP_SEP +:+ "sku__margin")
  = "items" +:+ "." +:+ dots "sku__margin".
Proof.
  apply (final_key_literal operators ["items"] "items" "sku__margin");
    [apply list_elem_of_here | reflexivity | reflexivity
    | exact operators_are_words | | reflexivity].
  intros s Hs. pick Hs; subst s; reflexivity.
Defined.

Let two_items : list (string * Value) := [("items__sku__in", AB); ("id", VInt 3)].

Lemma order_base_value : order_base = ["items"].
Proof. vm_compute. reflexivity. Qed.

Lemma two_items_free (k : string) (v : Value) (k' : string) (v' : Value) :
  (k, v) ∈ two_items → (k', v') ∈ two_items → k' ≠ k →
  is_rewritten order_base k' = true →
  dotted_key operators k' ≠ final_key operators order_base k
  ∧ k' ≠ final_key operators order_base k.
Proof.
  rewrite order_base_value. intros Hin Hin' Hne Hrw.
  pick Hin; pick Hin'; injection Hin as -> ->; injection Hin' as -> ->.
  - by destruct Hne.
  - vm_compute in Hrw. discriminate Hrw.
  - split; intros E; vm_compute in E; discriminate E.
  - by destruct Hne.
Qed.

Lemma two_items_nodup : NoDup two_items.*1.
Proof. apply (bool_decide_unpack _). vm_compute. exact I. Qed.


Lemma filter_keyword_binding_witness :
  let call := _filter_or_exclude operators 0 false [] two_items store in
  ∃ q cqs kw,
    queries store !! 0 = Some q
    ∧ querysets call.2 !! 2 = Some cqs
    ∧ queries call.2 !! qs_query cqs
      = Some (query_add_q (query_clone q) (added_node false [] kw))
    ∧ kw !! final_key operators order_base "items__sku__in" = Some AB.
Proof.
  assert (_filter_or_exclude operators 0 false [] two_items store
          = (Ok 2, (_filter_or_exclude operators 0 false [] two_items store).2))
    as Hrun by (vm_compute; reflexivity).
  exact (filter_keyword_binding operators 0 false [] two_items store _
           order_queryset 2 "items__sku__in" AB eq_refl Hrun two_items_nodup
           (list_elem_of_here _ _)
           (λ k' v' Hin' Hne Hrw,
              two_items_free "items__sku__in" AB k' v'
                (list_elem_of_here _ _) Hin' Hne Hrw)).
Defined.






Let sku_items : list (string * Value) := [("items__sku", VInt 1); ("meta.tag", VInt 2)].
Let first_call := _filter_or_exclude operators 0 false [] sku_items store.
Let second_call := _filter_or_exclude operators 2 true [] sku_items first_call.2.

Lemma registration_settles_witness : models second_call.2 = models first_call.2.
Proof.
  assert (first_call = (Ok 2, first_call.2)) as Hrun1 by (vm_compute; reflexivity).
  assert (second_call = (Ok 3, second_call.2)) as Hrun2 by (vm_compute; reflexivity).
  assert (querysets first_call.2 !! 2
          = Some (mkQuerySet MongoDBQuerySet "Order" 2 None false)) as Hqs2
    by (vm_compute; reflexivity).
  exact (registration_settles operators 0 false [] sku_items store first_call.2
           order_queryset 2 2 true [] second_call.2
           (mkQuerySet MongoDBQuerySet "Order" 2 None false) 3
           eq_refl Hrun1 Hqs2 eq_refl Hrun2).
Defined.

Lemma exclude_negates_filter_witness :
  let st' := (_filter_or_exclude operators 0 false [] two_items store).2 in
  ∃ st'' q kw cqs,
    _filter_or_exclude operators 0 true [] two_items store = (Ok 2, st'')
    ∧ queries store !! 0 = Some q
    ∧ querysets st' !! 2 = Some cqs
    ∧ querysets st'' = querysets st'
    ∧ models st'' = models st'
    ∧ queries st' !! qs_query cqs = Some (query_add_q (query_clone q) (Q [] kw))
    ∧ queries st'' !! qs_query cqs
      = Some (query_add_q (query_clone q) (QNot (Q [] kw)))
    ∧ ∀ l, l ≠ qs_query cqs → queries st'' !! l = queries st' !! l.
Proof.
  assert (_filter_or_exclude operators 0 false [] two_items store
          = (Ok 2, (_filter_or_exclude operators 0 false [] two_items store).2))
    as Hrun by (vm_compute; reflexivity).
  exact (exclude_negates_filter operators 0 [] two_items store _ order_queryset 2
           eq_refl Hrun).
Defined.

Let raw_store : Store := (raw_query manager pending store).2.

Lemma clone_keeps_raw_query_witness :
  ∃ c cqs st',
    _clone 2 raw_store = (Ok c, st')
    ∧ c ≠ 2
    ∧ querysets st' !! c = Some cqs
    ∧ qs_class cqs = DjangoQuerySet
    ∧ qs_query cqs ≠ 2
    ∧ queries st' !! qs_query cqs = Some (RawQuery (sql_clone (sql_new "Order")) pending)
    ∧ queries st' !! 2 = Some (RawQuery (sql_new "Order") pending).
Proof.
  assert (querysets raw_store !! 2
          = Some (mkQuerySet DjangoQuerySet "Order" 2 None false)) as Hqs
    by (vm_compute; reflexivity).
  assert (queries raw_store !! 2 = Some (RawQuery (sql_new "Order") pending)) as Hq
    by (vm_compute; reflexivity).
  exact (clone_keeps_raw_query 2 raw_store
           (mkQuerySet DjangoQuerySet "Order" 2 None false)
           (sql_new "Order") pending Hqs Hq).
Defined.

Let keywords : gmap string Value :=
  <["drop_collection" := VBool true]> (<["query" := pending]> (<["out" := VStr "mr_out"]> ∅)).

Lemma map_reduce_driver_keywords_witness :
  ∃ kw rest,
    trace (map_reduce false 0 job keywords store).2
    = trace store ++ CallMapReduce "Order" job kw :: rest
    ∧ kw !! "drop_collection" = None
    ∧ kw !! "query" = Some pending
    ∧ ∀ key, key ≠ "drop_collection" → key ≠ "query" → kw !! key = keywords !! key.
Proof.
  exact (map_reduce_driver_keywords false 0 job keywords store
           order_queryset order_query eq_refl eq_refl).
Defined.

Lemma inline_map_reduce_driver_keywords_witness :
  ∃ kw,
    trace (inline_map_reduce 0 job keywords store).2
    = trace store ++ [CallInlineMapReduce "Order" job kw]
    ∧ kw !! "query" = Some pending
    ∧ ∀ key, key ≠ "query" → kw !! key = keywords !! key.
Proof.
  exact (inline_map_reduce_driver_keywords 0 job keywords store
           order_queryset order_query eq_refl eq_refl).
Defined.

Let drop_true : gmap string Value := <["drop_collection" := VBool true]> ∅.
Let job_kw : gmap string Value := <["query" := VList []]> ∅.

Lemma map_reduce_eager_on_pypy_witness :
  let call := map_reduce true 0 job drop_true store in
  ∃ rc c1 rs,
    drv_map_reduce "Order" job job_kw (colls store) = (Ok rc, c1)
    ∧ ListIter
        [mkMapReduceResult "Order" (VStr "a") (VInt 2);
         mkMapReduceResult "Order" (VStr "b") (VInt 5)] = ListIter rs
    ∧ from_entities "Order" (default [] (c1 !! rc)) = Ok rs
    ∧ colls call.2 !! rc = None
    ∧ trace call.2
      = trace store ++ [CallMapReduce "Order" job job_kw; CallFind rc; CallDrop rc]
    ∧ ∀ fuel,
        (consume fuel
           (ListIter
              [mkMapReduceResult "Order" (VStr "a") (VInt 2);
               mkMapReduceResult "Order" (VStr "b") (VInt 5)]) call.2).2 = call.2.
Proof.
  assert (map_reduce true 0 job drop_true store
          = (Ok (ListIter
                   [mkMapReduceResult "Order" (VStr "a") (VInt 2);
                    mkMapReduceResult "Order" (VStr "b") (VInt 5)]),
             (map_reduce true 0 job drop_true store).2)) as Hrun
    by (vm_compute; reflexivity).
  exact (map_reduce_eager_on_pypy 0 job drop_true store _ order_queryset order_query _
           eq_refl eq_refl eq_refl Hrun).
Defined.

Lemma map_reduce_unstarted_never_drops_witness :
  let call := map_reduce false 0 job drop_true store in
  ∃ rc c1,
    drv_map_reduce "Order" job job_kw (colls store) = (Ok rc, c1)
    ∧ trace call.2 = trace store ++ [CallMapReduce "Order" job job_kw]
    ∧ colls call.2 = c1
    ∧ iter_close (GenCreated "Order" "mr_out" (VBool true)) call.2
      = (Ok GenFinished, call.2).
Proof.
  assert (map_reduce false 0 job drop_true store
          = (Ok (GenCreated "Order" "mr_out" (VBool true)),
             (map_reduce false 0 job drop_true store).2)) as Hrun
    by (vm_compute; reflexivity).
  exact (map_reduce_unstarted_never_drops false 0 job drop_true store _
           order_queryset order_query _ eq_refl eq_refl eq_refl Hrun).
Defined.

Lemma map_reduce_close_after_yield_witness :
  let call := map_reduce false 0 job drop_true store in
  let step := iter_next (GenCreated "Order" "mr_out" (VBool true)) call.2 in
  ∃ rc c1 st3,
    drv_map_reduce "Order" job job_kw (colls store) = (Ok rc, c1)
    ∧ iter_close
        (GenSuspended "Order" "mr_out" (VBool true) [doc (VStr "b") (VInt 5)]) step.2
      = (Ok GenFinished, st3)
    ∧ colls st3 = delete rc c1
    ∧ trace st3
      = trace store ++ [CallMapReduce "Order" job job_kw; CallFind rc; CallDrop rc].
Proof.
  assert (map_reduce false 0 job drop_true store
          = (Ok (GenCreated "Order" "mr_out" (VBool true)),
             (map_reduce false 0 job drop_true store).2)) as Hrun
    by (vm_compute; reflexivity).
  assert (iter_next (GenCreated "Order" "mr_out" (VBool true))
            (map_reduce false 0 job drop_true store).2
          = (Ok (Some (mkMapReduceResult "Order" (VStr "a") (VInt 2)),
                 GenSuspended "Order" "mr_out" (VBool true) [doc (VStr "b") (VInt 5)]),
             (iter_next (GenCreated "Order" "mr_out" (VBool true))
                (map_reduce false 0 job drop_true store).2).2)) as Hnext
    by (vm_compute; reflexivity).
  exact (map_reduce_close_after_yield false 0 job drop_true store _ _
           order_queryset order_query _ _ _ eq_refl eq_refl eq_refl Hrun Hnext).
Defined.

Let refused : Exn := DriverError "connection refused".

Lemma map_reduce_driver_error_witness :
  ∃ st1,
    map_reduce (H1 := Faulty.down) false 0 job drop_true store = (Raise refused, st1)
    ∧ trace st1 = trace store ++ [CallMapReduce "Order" job job_kw]
    ∧ colls st1 = colls store.
Proof.
  exact (map_reduce_driver_error (H1 := Faulty.down) false 0 job drop_true store
           order_queryset order_query refused (colls store) eq_refl eq_refl eq_refl).
Defined.

Lemma raw_update_driver_error_witness :
  let out := raw_update (H1 := Faulty.down) operators manager pending shipped ∅ store in
  out.1 = Raise refused
  ∧ trace out.2 = trace store ++ [CallUpdate "Order" pending shipped ∅]
  ∧ colls out.2 = colls store.
Proof.
  exact (raw_update_driver_error (H1 := Faulty.down) operators manager pending shipped
           ∅ store refused (colls store) (λ _, eq_refl) eq_refl).
Defined.

Lemma map_reduce_drops_on_key_error_witness :
  let out := map_reduce (H1 := Faulty.ragged) false 0 job drop_true store in
  ∃ it, out.1 = Ok it
        ∧ ∀ fuel, 2 < fuel →
            (consume fuel it out.2).1 = Raise (KeyError "value")
            ∧ colls (consume fuel it out.2).2
              = delete "mr_out" (<["mr_out" := Faulty.ragged_result]> (colls store)).
Proof.
  exact (map_reduce_drops_on_key_error (H1 := Faulty.ragged) false 0 job drop_true
           store order_queryset order_query "mr_out"
           (<["mr_out" := Faulty.ragged_result]> (colls store)) (KeyError "value")
           eq_refl eq_refl eq_refl eq_refl eq_refl).
Defined.

Lemma inline_map_reduce_failures_witness :
  let out := inline_map_reduce (H1 := Faulty.ragged) 0 job ∅ store in
  trace out.2 = trace store ++ [CallInlineMapReduce "Order" job job_kw]
  ∧ out.1 = Raise (KeyError "value").
Proof.
  destruct (inline_map_reduce_failures (H1 := Faulty.ragged) 0 job ∅ store
              order_queryset order_query eq_refl eq_refl) as (Htrace & _ & Hbad).
  split; [exact Htrace|].
  apply (Hbad [doc (VStr "a") (VInt 2)] (<["_id" := VStr "b"]> ∅) []).
  - reflexivity.
  - repeat constructor; by eexists.
  - by eexists.
  - reflexivity.
Defined.

End MoreOnOrder.
